(** * Flappy Birb: the state reducers, the pipe processor and the ghost replay

    A shallow embedding of [src/state.ts] ([tick], [jump]), [src/util.ts]
    ([RNG], [createRandomVelocity], [processPipe], [aggregatePipeResults],
    [parsePipeLine]), [src/types.ts] (constants, records, [initialState]) and
    of [createGhost$] from [src/main.ts], followed by the properties of the
    reducers that the specification states. *)

From Stdlib Require Import ZArith QArith Qround List Bool String Ascii Lia Lqa.
From Stdlib Require Qcanon.
Import ListNotations.

(** ** JavaScript numbers

    A [number] is either [NaN] or a finite value.  Finite values are exact
    rationals kept in lowest terms: the rounding of IEEE doubles, overflow and
    the two infinities are outside the model.  Every operation propagates
    [NaN], and every comparison with [NaN] is [false], as in JavaScript. *)
Module JS.

Inductive number : Type :=
| NaN : number
| Fin : Q -> number.

Definition lift2 (f : Q -> Q -> Q) (x y : number) : number :=
  match x, y with
  | Fin a, Fin b => Fin (Qred (f a b))
  | _, _ => NaN
  end.

Definition add : number -> number -> number := lift2 Qplus.
Definition sub : number -> number -> number := lift2 Qminus.
Definition mul : number -> number -> number := lift2 Qmult.

(** The program only divides by the non-zero constants [2] and [m - 1]; a zero
    divisor, which JavaScript sends to an infinity or to [NaN], is [NaN]. *)
Definition div (x y : number) : number :=
  match x, y with
  | Fin a, Fin b => if Qeq_bool b 0 then NaN else Fin (Qred (a / b))
  | _, _ => NaN
  end.

(** Rounding towards zero, the integer quotient behind [%]. *)
Definition trunc (q : Q) : Z := Z.quot (Qnum q) (Zpos (Qden q)).

(** [x % y]: the remainder has the sign of the dividend. *)
Definition rem (x y : number) : number :=
  match x, y with
  | Fin a, Fin b =>
      if Qeq_bool b 0 then NaN
      else Fin (Qred (a - b * inject_Z (trunc (a / b))))
  | _, _ => NaN
  end.

Definition cmp (f : Q -> Q -> bool) (x y : number) : bool :=
  match x, y with
  | Fin a, Fin b => f a b
  | _, _ => false
  end.

Definition le : number -> number -> bool := cmp Qle_bool.
Definition lt : number -> number -> bool :=
  cmp (fun a b => negb (Qle_bool b a)).
Definition ge (x y : number) : bool := le y x.
Definition gt (x y : number) : bool := lt y x.

Definition isNaN (x : number) : bool :=
  match x with NaN => true | Fin _ => false end.

End JS.

Import JS.
Coercion Fin : Q >-> number.

Declare Scope js_scope.
Delimit Scope js_scope with js.
Bind Scope js_scope with number.
Infix "+" := add : js_scope.
Infix "-" := sub : js_scope.
Infix "*" := mul : js_scope.
Infix "/" := div : js_scope.
Infix "mod" := rem : js_scope.
Infix "<?" := lt : js_scope.
Infix "<=?" := le : js_scope.
Infix ">?" := gt (at level 70) : js_scope.
Infix ">=?" := ge (at level 70) : js_scope.

Local Open Scope Q_scope.
Local Open Scope js_scope.

(** ** [src/types.ts] *)

Module Viewport.
Definition CANVAS_WIDTH : number := 600.
Definition CANVAS_HEIGHT : number := 400.
End Viewport.

Module Birb.
Definition WIDTH : number := 42.
Definition HEIGHT : number := 30.
End Birb.

Module Constants.
Definition PIPE_WIDTH : number := 50.
Definition TICK_RATE_MS : number := 16.
Definition GRAVITY : number := 0.4.
Definition PIPE_SPEED : number := 3.
Definition STRENGTH : number := -7.
Definition SEED : number := 1234.
Definition COLLISION_VELOCITY_DOWN : number := 5.
Definition COLLISION_VELOCITY_UP : number := -5.
End Constants.

Record Bird : Type := mkBird {
  verticalPosition : number;
  verticalVelocity : number
}.

Record Pipe : Type := mkPipe {
  horizontalPosition : number;
  gapY : number;
  gapHeight : number;
  time : number;
  collided : bool;
  passed : bool
}.

(** [score] and [lives] are counters: [initialState] starts them at [0] and
    [3], and the reducers only add a sum of [0]s and [1]s to the first and
    subtract [1] from the second, so they are integers. *)
Record State : Type := mkState {
  bird : Bird;
  pipes : list Pipe;
  score : Z;
  lives : Z;
  gameEnd : bool;
  gameTime : number;
  gameStarted : bool
}.

Definition initialBird : Bird :=
  {| verticalPosition := Viewport.CANVAS_HEIGHT / 2;
     verticalVelocity := 0 |}.

Definition initialState : State :=
  {| bird := initialBird;
     pipes := [];
     score := 0%Z;
     lives := 3%Z;
     gameEnd := false;
     gameTime := 0;
     gameStarted := false |}.

Module PipeProcessResult.
Record t : Type := mk {
  pipe : Pipe;
  hitPipe : bool;
  scoreIncrease : Z;
  velocityAdjustment : number
}.
End PipeProcessResult.

(** ** [src/util.ts] *)

Module RNG.
Definition m : number := 2147483648.
Definition a : number := 1103515245.
Definition c : number := 12345.

Definition hash (seed : number) : number := (a * seed + c) mod m.

Definition scale (hash : number) : number := (2 * hash) / (m - 1) - 1.
End RNG.

(** The default [0] of [velocity] stands for an omitted argument; both
    callers pass the velocity. *)
Definition createRandomVelocity
    (velocity : number) (hitTop hitBottom hasCollision : bool) : number :=
  let hash := RNG.hash (Constants.SEED + velocity) in
  let scaled := RNG.scale hash in
  if hasCollision then
    if hitTop then 5 + ((scaled + 1) / 2) * 5
    else if hitBottom then -10 + ((scaled + 1) / 2) * 5
    else 0
  else 0.

(** The horizontal and the vertical test of [processPipe]. *)
Definition inXRange (pipe : Pipe) (birdX : number) : bool :=
  (birdX + Birb.WIDTH / 2 >? horizontalPosition pipe) &&
  (birdX - Birb.WIDTH / 2 <? horizontalPosition pipe + Constants.PIPE_WIDTH).

Definition inYGap (pipe : Pipe) (birdPosition : number) : bool :=
  (birdPosition >? gapY pipe - gapHeight pipe / 2) &&
  (birdPosition <? gapY pipe + gapHeight pipe / 2).

(** [collided] and [passed] are booleans in every [Pipe], so that
    [pipe.collided ?? false] and [pipe.passed ?? false] are the fields. *)
Definition processPipe
    (pipe : Pipe) (birdX birdVelocity birdPosition : number)
    : PipeProcessResult.t :=
  let inXRange := inXRange pipe birdX in
  let inYGap := inYGap pipe birdPosition in
  let collided := collided pipe in
  let passed := passed pipe in
  let hasCollision := negb collided && inXRange && negb inYGap in
  let newCollided := collided || hasCollision in
  let hitTop := hasCollision && (birdPosition <? gapY pipe) in
  let hitBottom := hasCollision && (birdPosition >=? gapY pipe) in
  let velocityAdjustment :=
    createRandomVelocity birdVelocity hitTop hitBottom hasCollision in
  let hasPassed :=
    negb passed && negb newCollided &&
    (horizontalPosition pipe + Constants.PIPE_WIDTH <? birdX) in
  let newPassed := passed || hasPassed in
  let scoreIncrease := if hasPassed then 1%Z else 0%Z in
  {| PipeProcessResult.pipe :=
       {| horizontalPosition := horizontalPosition pipe - Constants.PIPE_SPEED;
          gapY := gapY pipe;
          gapHeight := gapHeight pipe;
          time := time pipe;
          collided := newCollided;
          passed := newPassed |};
     PipeProcessResult.hitPipe := hasCollision;
     PipeProcessResult.scoreIncrease := scoreIncrease;
     PipeProcessResult.velocityAdjustment := velocityAdjustment |}.

Module Aggregate.
Record t : Type := mk {
  hitPipe : bool;
  totalScoreIncrease : Z;
  pipeVelocityAdjustment : number
}.
End Aggregate.

Definition aggregatePipeResults (results : list PipeProcessResult.t)
    : Aggregate.t :=
  {| Aggregate.hitPipe := existsb PipeProcessResult.hitPipe results;
     Aggregate.totalScoreIncrease :=
       fold_left (fun sum result =>
                    (sum + PipeProcessResult.scoreIncrease result)%Z)
                 results 0%Z;
     Aggregate.pipeVelocityAdjustment :=
       fold_left (fun sum result =>
                    sum + PipeProcessResult.velocityAdjustment result)
                 results (Fin 0) |}.

(** [parsePipeLine] applies the built-in [Number] to every token of the line;
    the conversion of a string to a number is the language's, not this
    program's, so it is a parameter here. *)
Fixpoint splitOn (sep : ascii) (cur : string) (s : string) : list string :=
  match s with
  | EmptyString => [cur]
  | String ch rest =>
      if Ascii.eqb ch sep then cur :: splitOn sep EmptyString rest
      else splitOn sep (cur ++ String ch EmptyString)%string rest
  end.

(** [line.split(",")] *)
Definition split (line : string) : list string :=
  splitOn ","%char EmptyString line.

Section Parse.

Variable Number : string -> number.

(** An array pattern binds the missing positions to [undefined], which
    arithmetic turns into [NaN]. *)
Definition parsePipeLine (line : string) : Pipe :=
  let fields := map Number (split line) in
  let gap_y_frac := nth 0 fields NaN in
  let gap_height_frac := nth 1 fields NaN in
  let time_sec := nth 2 fields NaN in
  {| horizontalPosition := Viewport.CANVAS_WIDTH;
     gapY := gap_y_frac * Viewport.CANVAS_HEIGHT;
     gapHeight := gap_height_frac * Viewport.CANVAS_HEIGHT;
     time := time_sec * 1000;
     collided := false;
     passed := false |}.

End Parse.

(** [Number] on the fields of the schedule file: an optionally signed
    decimal literal, with or without a fraction, and the empty string, which
    is [0].  Every other string is taken to [NaN]; surrounding white space,
    exponents, [Infinity] and the literals in other bases, which [Number]
    also accepts, are not covered. *)
Definition digit (ch : ascii) : option Z :=
  let n := nat_of_ascii ch in
  if ((48 <=? n) && (n <=? 57))%nat then Some (Z.of_nat (n - 48)) else None.

Fixpoint decimal (s : string) (seenDot : bool) (num : Z) (den : positive)
    (count : nat) : number :=
  match s with
  | EmptyString => if (count =? 0)%nat then NaN else Fin (Qred (num # den))
  | String ch rest =>
      if Ascii.eqb ch "."%char then
        if seenDot then NaN else decimal rest true num den count
      else
        match digit ch with
        | Some d =>
            decimal rest seenDot (10 * num + d)%Z
                    (if seenDot then (10 * den)%positive else den) (S count)
        | None => NaN
        end
  end.

Definition NumberDecimal (s : string) : number :=
  match s with
  | EmptyString => Fin 0
  | String ch rest =>
      if Ascii.eqb ch "-"%char then Fin 0 - decimal rest false 0 1 0
      else if Ascii.eqb ch "+"%char then decimal rest false 0 1 0
      else decimal s false 0 1 0
  end.

(** ** [src/state.ts] *)

Definition birdX : number := Viewport.CANVAS_WIDTH * 0.3.

(** The two boundary tests of [tick], on the position after gravity. *)
Definition newVelocity (s : State) : number :=
  verticalVelocity (bird s) + Constants.GRAVITY.

Definition newPosition (s : State) : number :=
  verticalPosition (bird s) + newVelocity s.

Definition pipeResults (s : State) : list PipeProcessResult.t :=
  map (fun pipe => processPipe pipe birdX (newVelocity s) (newPosition s))
      (pipes s).

Definition newPipes (s : State) : list Pipe :=
  filter (fun p => horizontalPosition p + Constants.PIPE_WIDTH >? 0)
         (map PipeProcessResult.pipe (pipeResults s)).

Definition hitTop (s : State) : bool := newPosition s <=? 0.
Definition hitBottom (s : State) : bool :=
  newPosition s >=? Viewport.CANVAS_HEIGHT.

Definition boundaryVelocityAdjustment (s : State) : number :=
  let hasCollision := hitTop s || hitBottom s in
  createRandomVelocity (newVelocity s) (hitTop s) (hitBottom s) hasCollision.

Definition tick (s : State) : State :=
  if gameEnd s then s
  else
    let newVelocity := newVelocity s in
    let pipeResults := pipeResults s in
    let newPipes := newPipes s in
    let agg := aggregatePipeResults pipeResults in
    let hitPipe := Aggregate.hitPipe agg in
    let totalScoreIncrease := Aggregate.totalScoreIncrease agg in
    let pipeVelocityAdjustment := Aggregate.pipeVelocityAdjustment agg in
    let boundaryVelocityAdjustment := boundaryVelocityAdjustment s in
    let hitBoundary := hitTop s || hitBottom s in
    let loseLife := hitBoundary || hitPipe in
    let newLives := if loseLife then (lives s - 1)%Z else lives s in
    let gameEnd :=
      (newLives <=? 0)%Z ||
      (gameStarted s && (List.length newPipes =? 0)%nat) in
    let finalVelocity :=
      newVelocity + pipeVelocityAdjustment + boundaryVelocityAdjustment in
    let finalPosition := verticalPosition (bird s) + finalVelocity in
    let newBird :=
      {| verticalVelocity := finalVelocity;
         verticalPosition := finalPosition |} in
    {| bird := newBird;
       pipes := newPipes;
       score := (score s + totalScoreIncrease)%Z;
       lives := newLives;
       gameEnd := gameEnd;
       gameTime := gameTime s + Constants.TICK_RATE_MS;
       gameStarted := gameStarted s |}.

Definition jump (s : State) : State :=
  {| bird :=
       {| verticalPosition := verticalPosition (bird s);
          verticalVelocity := Constants.STRENGTH |};
     pipes := pipes s;
     score := score s;
     lives := lives s;
     gameEnd := gameEnd s;
     gameTime := gameTime s;
     gameStarted := gameStarted s |}.

(** ** [src/main.ts] *)

(** The reducers that [state$] merges: every clock emission carries [tick],
    every space key press [jump], and the timer of a scheduled pipe carries
    the function that appends the pipe and starts the game. *)
Inductive Reducer : Type :=
| Tick : Reducer
| Jump : Reducer
| Spawn : Pipe -> Reducer.

Definition spawn (p : Pipe) (s : State) : State :=
  {| bird := bird s;
     pipes := pipes s ++ [p];
     score := score s;
     lives := lives s;
     gameEnd := gameEnd s;
     gameTime := gameTime s;
     gameStarted := true |}.

Definition reducerFn (r : Reducer) : State -> State :=
  match r with
  | Tick => tick
  | Jump => jump
  | Spawn p => spawn p
  end.

(** [scan((state, reducerFn) => reducerFn(state), initialState)]: the state
    after the merged events [rs], in their order of arrival. *)
Definition scan (rs : list Reducer) (s : State) : State :=
  fold_left (fun state r => reducerFn r state) rs s.

(** [state$]: the initial state, then the state after each event. *)
Fixpoint scanStates (rs : list Reducer) (s : State) : list State :=
  match rs with
  | [] => []
  | r :: rs' => reducerFn r s :: scanStates rs' (reducerFn r s)
  end.

Definition stateStream (rs : list Reducer) : list State :=
  initialState :: scanStates rs initialState.

(** [takeWhile(predicate, true)]: the states up to the first one that fails
    the predicate, that one included. *)
Fixpoint takeWhileInclusive (predicate : State -> bool) (l : list State)
    : list State :=
  match l with
  | [] => []
  | st :: l' =>
      if predicate st then st :: takeWhileInclusive predicate l' else [st]
  end.

Definition createGameSession (rs : list Reducer) : list State :=
  takeWhileInclusive (fun state => negb (gameEnd state)) (stateStream rs).

(** An observable driven by the clock is read through its emissions:
    [o k] is the [k]-th value it emits, and [None] when it has completed
    before emitting that many. *)
Module Rx.

Definition Observable (A : Type) : Type := nat -> option A.

(** [interval(period)] emits [0], [1], [2], ... one per period, for ever. *)
Definition interval (period : number) : Observable Z :=
  fun k => Some (Z.of_nat k).

(** [take(count)] completes after the first [count] emissions. *)
Definition take {A : Type} (count : Z) (o : Observable A) : Observable A :=
  fun k => if (Z.of_nat k <? count)%Z then o k else None.

Definition map {A B : Type} (f : A -> B) (o : Observable A) : Observable B :=
  fun k => option_map f (o k).

(** The first [n] notifications of [o]. *)
Definition emissions {A : Type} (o : Observable A) (n : nat)
    : list (option A) :=
  List.map o (seq 0 n).

End Rx.

(** [path.length] and [path[i]]; the index is within the array wherever
    [createGhost] reads it. *)
Definition pathLength (path : list number) : Z := Z.of_nat (List.length path).

Definition pathAt (path : list number) (i : Z) : option number :=
  nth_error path (Z.to_nat i).

(** [createGhost$]: the value [None] of the emitted type is [null]. *)
Definition createGhost (path : list number) : Rx.Observable (option number) :=
  Rx.map (fun i => if (i <? pathLength path - 1)%Z then pathAt path i else None)
         (Rx.take (pathLength path) (Rx.interval Constants.TICK_RATE_MS)).

(** ** Vocabulary of the statements *)

(** A finite number between two bounds; [NaN] is in no range. *)
Definition inRange (lo hi : Q) (x : number) : Prop :=
  match x with
  | Fin q => (lo <= q /\ q <= hi)%Q
  | NaN => False
  end.

(** The evaluation of one pipe during the tick of [s]: [processPipe] on the
    fixed [birdX] and on the velocity and position after gravity. *)
Definition evalPipe (s : State) (pipe : Pipe) : PipeProcessResult.t :=
  processPipe pipe birdX
    (verticalVelocity (bird s) + Constants.GRAVITY)
    (verticalPosition (bird s)
     + (verticalVelocity (bird s) + Constants.GRAVITY)).

(** Some edge of the canvas is reached, or some pipe of the state is hit. *)
Definition losesLife (s : State) : Prop :=
  hitTop s = true \/ hitBottom s = true \/
  exists pipe, In pipe (pipes s) /\
               PipeProcessResult.hitPipe (evalPipe s pipe) = true.

Definition sumZ (l : list Z) : Z := fold_right Z.add 0%Z l.

(** Left-to-right sum starting from [0], the order of [reduce]. *)
Definition sumNumber (l : list number) : number :=
  fold_left add l (Fin 0).

(** [s] with the velocity of its bird replaced. *)
Definition withVelocity (v : number) (s : State) : State :=
  {| bird := {| verticalPosition := verticalPosition (bird s);
                verticalVelocity := v |};
     pipes := pipes s;
     score := score s;
     lives := lives s;
     gameEnd := gameEnd s;
     gameTime := gameTime s;
     gameStarted := gameStarted s |}.

(** A state at its end, with the bird at rest. *)
Definition endedState : State :=
  {| bird := initialBird;
     pipes := [];
     score := 0%Z;
     lives := 0%Z;
     gameEnd := true;
     gameTime := 0;
     gameStarted := false |}.

(** A pipe at horizontal position [x] whose gap is centred at [200] and is
    [100] high, and a running state with the bird at height [y] and velocity
    [v] in front of the pipes [ps]. *)
Definition pipeAt (x : number) : Pipe :=
  {| horizontalPosition := x;
     gapY := 200;
     gapHeight := 100;
     time := 0;
     collided := false;
     passed := false |}.

Definition stateWith (y v : number) (ps : list Pipe) : State :=
  {| bird := {| verticalPosition := y; verticalVelocity := v |};
     pipes := ps;
     score := 0%Z;
     lives := 3%Z;
     gameEnd := false;
     gameTime := 0;
     gameStarted := true |}.

(** The state of the boundary example: the bird on the top edge, moving
    down at velocity [2]; and the same with the bird moving up. *)
Definition boundaryExample : State :=
  {| bird := {| verticalPosition := 0; verticalVelocity := 2 |};
     pipes := [];
     score := 0%Z;
     lives := 3%Z;
     gameEnd := false;
     gameTime := 0;
     gameStarted := false |}.

Definition boundaryExampleUp : State :=
  {| bird := {| verticalPosition := 0; verticalVelocity := -2 |};
     pipes := [];
     score := 0%Z;
     lives := 3%Z;
     gameEnd := false;
     gameTime := 0;
     gameStarted := false |}.

(** A record of the schedule whose first field is not a number. *)
Definition malformedLine : string := "abc,0.5,1".

(** [pipe] once the ticks have advanced it to the horizontal position [x]. *)
Definition movedTo (x : number) (pipe : Pipe) : Pipe :=
  {| horizontalPosition := x;
     gapY := gapY pipe;
     gapHeight := gapHeight pipe;
     time := time pipe;
     collided := collided pipe;
     passed := passed pipe |}.

(** A running state whose only pipe has its trailing edge at [3]: the tick
    advances the pipe out of the canvas. *)
Definition lastPipeLeaving : State := stateWith 200 0 [pipeAt (-47)].

(** ** [src/main.ts]: the schedule of the pipes *)

(** The white space that [trim] removes, among the ASCII characters. *)
Definition isWhiteSpace (ch : ascii) : bool :=
  let n := nat_of_ascii ch in
  ((9 <=? n) && (n <=? 13) || (n =? 32))%nat.

Fixpoint trimStart (s : string) : string :=
  match s with
  | EmptyString => EmptyString
  | String ch rest => if isWhiteSpace ch then trimStart rest else s
  end.

Fixpoint trimEnd (s : string) : string :=
  match s with
  | EmptyString => EmptyString
  | String ch rest =>
      match trimEnd rest with
      | EmptyString => if isWhiteSpace ch then EmptyString
                       else String ch EmptyString
      | rest' => String ch rest'
      end
  end.

Definition trim (s : string) : string := trimEnd (trimStart s).

Definition newline : ascii := ascii_of_nat 10.

(** [csvContents.trim().split("\n").slice(1)] *)
Definition csvLines (csvContents : string) : list string :=
  tl (splitOn newline EmptyString (trim csvContents)).

Section PipeStream.

Variable Number : string -> number.

(** [createPipeStream$]: one timer per parsed pipe, written as the delay of
    the timer and the reducer that it emits; [merge] lets each fire when its
    delay has passed. *)
Definition createPipeStream (csvContents : string)
    : list (number * Reducer) :=
  let lines := csvLines csvContents in
  let pipes := map (parsePipeLine Number) lines in
  map (fun p => (time p, Spawn p)) pipes.

End PipeStream.

Definition isSpawn (r : Reducer) : bool :=
  match r with
  | Spawn _ => true
  | _ => false
  end.

(** The [path] that the subscriber of a session collects: the position of
    the bird in every state of the session. *)
Definition recordPath (session : list State) : list number :=
  map (fun state => verticalPosition (bird state)) session.

(** ** [src/view.ts]: the geometry of the drawing

    The attributes that [render] gives to the image of the bird and to the
    two rectangles of a pipe, as the numbers that it prints into them. *)
Module View.

Record Box : Type := mkBox {
  x : number;
  y : number;
  width : number;
  height : number
}.

Definition birdImg (s : State) : Box :=
  {| x := Viewport.CANVAS_WIDTH * 0.3 - Birb.WIDTH / 2;
     y := verticalPosition (bird s) - Birb.HEIGHT / 2;
     width := Birb.WIDTH;
     height := Birb.HEIGHT |}.

Definition pipeTop (pipe : Pipe) : Box :=
  {| x := horizontalPosition pipe;
     y := 0;
     width := Constants.PIPE_WIDTH;
     height := gapY pipe - gapHeight pipe / 2 |}.

Definition pipeBottom (pipe : Pipe) : Box :=
  {| x := horizontalPosition pipe;
     y := gapY pipe + gapHeight pipe / 2;
     width := Constants.PIPE_WIDTH;
     height := Viewport.CANVAS_HEIGHT - (gapY pipe + gapHeight pipe / 2) |}.

End View.

(** ** More vocabulary *)

(** The successive evaluations of one pipe: each one runs [processPipe] on
    the pipe that the one before returned, with the bird of its own tick
    (horizontal position, velocity, vertical position). *)
Fixpoint track (pipe : Pipe) (birds : list (number * number * number))
    : list PipeProcessResult.t :=
  match birds with
  | [] => []
  | (x, v, y) :: rest =>
      let r := processPipe pipe x v y in
      r :: track (PipeProcessResult.pipe r) rest
  end.

(** A pipe with the given finite geometry. *)
Definition finitePipe (hp gy gh : Q) (t : number) (c p : bool) : Pipe :=
  {| horizontalPosition := Fin hp;
     gapY := Fin gy;
     gapHeight := Fin gh;
     time := t;
     collided := c;
     passed := p |}.

(** What every reducer keeps true from [initialState] on. *)
Definition playable (s : State) : Prop :=
  (0 <= lives s <= 3)%Z /\
  (0 <= score s)%Z /\
  (lives s <= 0 -> gameEnd s = true)%Z /\
  (gameStarted s = true -> gameEnd s = false -> pipes s <> []).

(** A pipe that the next tick drops: its trailing edge, once advanced, is not
    to the right of the left edge of the canvas, or it has no position. *)
Definition leaving (pipe : Pipe) : Prop :=
  match horizontalPosition pipe with
  | Fin q => (q <= -47)%Q
  | NaN => True
  end.

(** A running state with one pipe ahead of the bird. *)
Definition onePipeAhead : State := stateWith 200 0 [pipeAt 300].

(** Whether, and how often, a character occurs in a string; and the lines of
    a text put together again, with a newline between two of them. *)
Fixpoint occurs (ch : ascii) (s : string) : bool :=
  match s with
  | EmptyString => false
  | String ch' rest => Ascii.eqb ch' ch || occurs ch rest
  end.

Fixpoint countChar (ch : ascii) (s : string) : nat :=
  match s with
  | EmptyString => 0%nat
  | String ch' rest =>
      ((if Ascii.eqb ch' ch then 1 else 0) + countChar ch rest)%nat
  end.

Fixpoint joinLines (lines : list string) : string :=
  match lines with
  | [] => EmptyString
  | [line] => line
  | line :: rest => (line ++ String newline (joinLines rest))%string
  end.

(** A schedule file with a header and two records. *)
Definition sampleCsv : string :=
  joinLines ["gap_y,gap_height,time"; "0.5,0.25,2"; "0.3,0.2,5.5"]%string.

(** * Properties *)

(** ** Numbers *)

Lemma cmp_NaN_l (f : Q -> Q -> bool) (y : number) : cmp f NaN y = false.
Proof. reflexivity. Qed.

Lemma cmp_NaN_r (f : Q -> Q -> bool) (x : number) : cmp f x NaN = false.
Proof. destruct x; reflexivity. Qed.

Lemma lift2_NaN_r (f : Q -> Q -> Q) (x : number) : lift2 f x NaN = NaN.
Proof. destruct x; reflexivity. Qed.

Lemma isNaN_true (x : number) : isNaN x = true <-> x = NaN.
Proof. destruct x; simpl; split; intro H; congruence. Qed.

Lemma mul_NaN_l (y : number) : NaN * y = NaN.
Proof. reflexivity. Qed.

Lemma sub_NaN_r (x : number) : x - NaN = NaN.
Proof. apply lift2_NaN_r. Qed.

Lemma add_NaN_r (x : number) : x + NaN = NaN.
Proof. apply lift2_NaN_r. Qed.

Lemma div_NaN_l (y : number) : NaN / y = NaN.
Proof. reflexivity. Qed.

Lemma gt_NaN_r (x : number) : (x >? NaN) = false.
Proof. reflexivity. Qed.

Lemma lt_NaN_r (x : number) : (x <? NaN) = false.
Proof. apply cmp_NaN_r. Qed.

Lemma ge_NaN_r (x : number) : (x >=? NaN) = false.
Proof. reflexivity. Qed.

(** ** The reducers, field by field *)

Lemma tick_ended (s : State) : gameEnd s = true -> tick s = s.
Proof. intro H. unfold tick. rewrite H. reflexivity. Qed.

Lemma jump_withVelocity (s : State) :
  jump s = withVelocity Constants.STRENGTH s.
Proof. reflexivity. Qed.

Lemma evalPipe_results (s : State) :
  pipeResults s = map (evalPipe s) (pipes s).
Proof. reflexivity. Qed.

Lemma existsb_hitPipe (s : State) :
  existsb PipeProcessResult.hitPipe (pipeResults s) = true <->
  exists pipe, In pipe (pipes s) /\
               PipeProcessResult.hitPipe (evalPipe s pipe) = true.
Proof.
  rewrite evalPipe_results, existsb_exists. split.
  - intros [r [Hin Hr]]. apply in_map_iff in Hin.
    destruct Hin as [p [Hp Hinp]]. exists p. subst r. split; assumption.
  - intros [p [Hin Hp]]. exists (evalPipe s p). split; [|assumption].
    apply in_map. assumption.
Qed.

Lemma losesLife_bool (s : State) :
  losesLife s <->
  (hitTop s || hitBottom s)
  || Aggregate.hitPipe (aggregatePipeResults (pipeResults s)) = true.
Proof.
  unfold losesLife. simpl. rewrite !orb_true_iff, existsb_hitPipe. tauto.
Qed.

Lemma tick_lives (s : State) :
  gameEnd s = false ->
  lives (tick s) =
  if (hitTop s || hitBottom s)
     || Aggregate.hitPipe (aggregatePipeResults (pipeResults s))
  then (lives s - 1)%Z else lives s.
Proof. intro H. unfold tick. rewrite H. reflexivity. Qed.

Lemma tick_score (s : State) :
  gameEnd s = false ->
  score (tick s) =
  (score s
   + Aggregate.totalScoreIncrease (aggregatePipeResults (pipeResults s)))%Z.
Proof. intro H. unfold tick. rewrite H. reflexivity. Qed.

Lemma fold_left_Zadd (l : list PipeProcessResult.t) (acc : Z) :
  fold_left (fun sum result =>
               (sum + PipeProcessResult.scoreIncrease result)%Z) l acc =
  (acc + sumZ (map PipeProcessResult.scoreIncrease l))%Z.
Proof.
  revert acc. induction l as [|r l IH]; intro acc; simpl.
  - lia.
  - rewrite IH. unfold sumZ. simpl. lia.
Qed.

Lemma fold_left_add (l : list PipeProcessResult.t) (acc : number) :
  fold_left (fun sum result =>
               sum + PipeProcessResult.velocityAdjustment result) l acc =
  fold_left add (map PipeProcessResult.velocityAdjustment l) acc.
Proof.
  revert acc. induction l as [|r l IH]; intro acc; simpl.
  - reflexivity.
  - apply IH.
Qed.

Lemma scoreIncrease_range
    (pipe : Pipe) (x v y : number) :
  (0 <= PipeProcessResult.scoreIncrease (processPipe pipe x v y) <= 1)%Z.
Proof.
  unfold processPipe. simpl.
  destruct (negb (passed pipe) && _ && _); lia.
Qed.

Lemma sumZ_nonneg (l : list Z) :
  Forall (fun z => (0 <= z)%Z) l -> (0 <= sumZ l)%Z.
Proof.
  induction 1 as [|z l Hz _ IH]; unfold sumZ in *; simpl; lia.
Qed.

Lemma sumZ_In (l : list Z) (z : Z) :
  Forall (fun z => (0 <= z)%Z) l -> In z l -> (z <= sumZ l)%Z.
Proof.
  induction 1 as [|z' l Hz Hl IH]; intro Hin.
  - destruct Hin.
  - pose proof (sumZ_nonneg l Hl) as Hs.
    unfold sumZ in *. simpl. destruct Hin as [->|Hin].
    + lia.
    + specialize (IH Hin). lia.
Qed.

Lemma scoreIncreases_nonneg (s : State) :
  Forall (fun z => (0 <= z)%Z)
         (map PipeProcessResult.scoreIncrease (map (evalPipe s) (pipes s))).
Proof.
  apply Forall_forall. intros z Hz.
  apply in_map_iff in Hz. destruct Hz as [r [<- Hr]].
  apply in_map_iff in Hr. destruct Hr as [p [<- _]].
  apply scoreIncrease_range.
Qed.

Lemma totalScoreIncrease_sum (s : State) :
  Aggregate.totalScoreIncrease (aggregatePipeResults (pipeResults s)) =
  sumZ (map PipeProcessResult.scoreIncrease (map (evalPipe s) (pipes s))).
Proof.
  simpl. rewrite fold_left_Zadd, evalPipe_results. lia.
Qed.

Lemma tick_monotone (s : State) :
  (lives (tick s) <= lives s)%Z /\ (score s <= score (tick s))%Z.
Proof.
  destruct (gameEnd s) eqn:E.
  - rewrite (tick_ended s E). lia.
  - rewrite (tick_lives s E), (tick_score s E), totalScoreIncrease_sum.
    pose proof (sumZ_nonneg _ (scoreIncreases_nonneg s)) as Hs.
    destruct (_ || _); lia.
Qed.

Lemma reducerFn_monotone (r : Reducer) (s : State) :
  (lives (reducerFn r s) <= lives s)%Z /\
  (score s <= score (reducerFn r s))%Z.
Proof.
  destruct r as [| |p]; simpl.
  - apply tick_monotone.
  - lia.
  - lia.
Qed.

(** ** Pipes without a gap *)

Lemma inYGap_NaN (pipe : Pipe) (y : number) :
  gapY pipe = NaN \/ gapHeight pipe = NaN -> inYGap pipe y = false.
Proof.
  unfold inYGap. intros [H|H]; rewrite H.
  - reflexivity.
  - destruct (gapY pipe); reflexivity.
Qed.

Lemma processPipe_no_gap (pipe : Pipe) (x v y : number) :
  inYGap pipe y = false ->
  PipeProcessResult.hitPipe (processPipe pipe x v y) =
    negb (collided pipe) && inXRange pipe x /\
  PipeProcessResult.scoreIncrease (processPipe pipe x v y) =
    if negb (passed pipe) && negb (collided pipe || inXRange pipe x)
       && (horizontalPosition pipe + Constants.PIPE_WIDTH <? x)
    then 1%Z else 0%Z.
Proof.
  intro H. unfold processPipe. simpl. rewrite H.
  destruct (collided pipe), (inXRange pipe x); simpl; split; reflexivity.
Qed.

Lemma createRandomVelocity_neither (v : number) (hasCollision : bool) :
  createRandomVelocity v false false hasCollision = 0.
Proof. unfold createRandomVelocity. destruct hasCollision; reflexivity. Qed.

Lemma processPipe_NaN_gapY (pipe : Pipe) (x v y : number) :
  gapY pipe = NaN ->
  PipeProcessResult.velocityAdjustment (processPipe pipe x v y) = 0.
Proof.
  intro H. unfold processPipe. simpl. rewrite H.
  rewrite lt_NaN_r, ge_NaN_r, !andb_false_r.
  apply createRandomVelocity_neither.
Qed.

(** ** The range of the random velocity *)

Lemma sub_m_1 : RNG.m - 1 = Fin 2147483647.
Proof. reflexivity. Qed.

Lemma Qdiv_2 (x : Q) : (x / 2 == x * (1 # 2))%Q.
Proof. reflexivity. Qed.

Lemma Qdiv_m1 (x : Q) : (x / 2147483647 == x * (1 # 2147483647))%Q.
Proof. reflexivity. Qed.

(** The value on a collision, as a rational function of the hash. *)
Lemma createRandomVelocity_value (v : number) (h : Q) (hitTop : bool) :
  RNG.hash (Constants.SEED + v) = Fin h ->
  exists q : Q,
    createRandomVelocity v hitTop true true = Fin q /\
    (q == (if hitTop then 5 else -10) + h * (5 # 2147483647))%Q.
Proof.
  intro Hh. unfold createRandomVelocity. rewrite Hh.
  unfold RNG.scale. rewrite sub_m_1.
  destruct hitTop; (eexists; split; [reflexivity|]);
    rewrite !Qred_correct, Qdiv_2, Qdiv_m1; ring.
Qed.

(** ** The hash of a seed that is not negative *)

Lemma trunc_floor (q : Q) : (0 <= q)%Q -> trunc q = Qfloor q.
Proof.
  destruct q as [n d]. unfold Qle, trunc, Qfloor. simpl. intro H.
  apply Z.quot_div_nonneg; lia.
Qed.

Lemma rem_m_range (x : Q) :
  (0 <= x)%Q ->
  (0 <= x - 2147483648 * inject_Z (trunc (x / 2147483648)) /\
   x - 2147483648 * inject_Z (trunc (x / 2147483648)) < 2147483648)%Q.
Proof.
  intro Hx.
  assert (x / 2147483648 == x * (1 # 2147483648))%Q as Hd by reflexivity.
  assert (0 <= x / 2147483648)%Q as Hq by (rewrite Hd; lra).
  rewrite (trunc_floor _ Hq).
  pose proof (Qfloor_le (x / 2147483648)) as Hlo.
  pose proof (Qlt_floor (x / 2147483648)) as Hhi.
  rewrite inject_Z_plus in Hhi. change (inject_Z 1) with 1%Q in Hhi.
  set (f := inject_Z (Qfloor (x / 2147483648))) in *.
  clearbody f. rewrite Hd in Hlo, Hhi.
  split; lra.
Qed.

Lemma hash_range (v : Q) :
  (-1234 <= v)%Q ->
  exists h : Q,
    RNG.hash (Constants.SEED + Fin v) = Fin h /\
    (0 <= h)%Q /\ (h < 2147483648)%Q.
Proof.
  intro Hv. unfold RNG.hash.
  eexists. split; [reflexivity|].
  rewrite Qred_correct.
  apply rem_m_range.
  rewrite !Qred_correct.
  assert (0 <= 1234 + v)%Q by lra. nra.
Qed.

Lemma hash_integer_seed (n : Z) :
  (-1234 <= n)%Z ->
  exists h : Q,
    RNG.hash (Constants.SEED + Fin (inject_Z n)) = Fin h /\
    (0 <= h)%Q /\ (h <= 2147483647)%Q.
Proof.
  intro Hn. unfold RNG.hash.
  eexists. split; [reflexivity|].
  rewrite Qred_correct.
  set (x := Qred (Qred (1103515245 * Qred (1234 + inject_Z n)) + 12345)).
  assert (x == inject_Z (1103515245 * (1234 + n) + 12345))%Q as Hx.
  { unfold x. rewrite !Qred_correct.
    rewrite inject_Z_plus, inject_Z_mult, inject_Z_plus. reflexivity. }
  assert (0 <= x)%Q as H0.
  { rewrite Hx. change 0%Q with (inject_Z 0). rewrite <- Zle_Qle. lia. }
  destruct (rem_m_range x H0) as [Hlo Hhi].
  split; [exact Hlo|].
  set (t := trunc (x / 2147483648)) in *.
  assert (x - 2147483648 * inject_Z t ==
          inject_Z (1103515245 * (1234 + n) + 12345 - 2147483648 * t))%Q
    as Hz.
  { rewrite Hx. unfold Zminus.
    rewrite (inject_Z_plus _ (- _)), inject_Z_opp, inject_Z_mult.
    reflexivity. }
  rewrite Hz in Hhi |- *.
  change 2147483648%Q with (inject_Z 2147483648) in Hhi.
  change 2147483647%Q with (inject_Z 2147483647).
  rewrite <- Zlt_Qlt in Hhi. rewrite <- Zle_Qle. lia.
Qed.

Lemma birdX_value : birdX = Fin 180.
Proof. reflexivity. Qed.

(** X24: a pipe that the filter of a tick removes is not hit on that tick and
    adds no velocity adjustment: with its trailing edge at the left edge of
    the canvas or beyond, or without a position, it does not overlap the
    bird of the game. *)
Lemma removed_pipe_not_hit (s : State) (pipe : Pipe) :
  (horizontalPosition (PipeProcessResult.pipe (evalPipe s pipe))
   + Constants.PIPE_WIDTH >? 0) = false ->
  PipeProcessResult.hitPipe (evalPipe s pipe) = false /\
  PipeProcessResult.velocityAdjustment (evalPipe s pipe) = 0.
Proof.
  unfold evalPipe, processPipe. cbn [PipeProcessResult.pipe
    PipeProcessResult.hitPipe PipeProcessResult.velocityAdjustment
    horizontalPosition].
  intro H.
  assert (inXRange pipe birdX = false) as Hx.
  { unfold inXRange. rewrite birdX_value.
    destruct (horizontalPosition pipe) as [|q].
    - reflexivity.
    - apply andb_false_intro2.
      unfold Constants.PIPE_SPEED, Constants.PIPE_WIDTH in *.
      change (Fin 180 - Birb.WIDTH / 2) with (Fin 159).
      unfold gt, lt, add, sub, lift2, cmp in *.
      apply negb_false_iff in H. apply negb_false_iff.
      apply Qle_bool_iff in H. apply Qle_bool_iff.
      rewrite !Qred_correct in H. rewrite Qred_correct. lra. }
  rewrite Hx, !andb_false_r. simpl. split; reflexivity.
Qed.

(** The two ranges of the value on a collision, from the range of the hash. *)
Lemma collision_value_range (v : number) (h : Q) (hitBottom : bool) :
  RNG.hash (Constants.SEED + v) = Fin h ->
  (0 <= h)%Q -> (h <= 2147483647)%Q ->
  inRange 5 10 (createRandomVelocity v true hitBottom true) /\
  inRange (-10) (-5) (createRandomVelocity v false true true).
Proof.
  intros Hh H0 H1. split.
  - replace (createRandomVelocity v true hitBottom true)
      with (createRandomVelocity v true true true) by reflexivity.
    destruct (createRandomVelocity_value v h true Hh) as [q [-> Hq]].
    simpl. rewrite Hq. split; lra.
  - destruct (createRandomVelocity_value v h false Hh) as [q [-> Hq]].
    simpl. rewrite Hq. split; lra.
Qed.



(** ** The session stops at the first ended state *)

Lemma takeWhileInclusive_last (predicate : State -> bool) (l : list State) :
  Forall (fun st => predicate st = true)
         (removelast (takeWhileInclusive predicate l)).
Proof.
  induction l as [|st l IH]; simpl.
  - constructor.
  - destruct (predicate st) eqn:E.
    + destruct (takeWhileInclusive predicate l) as [|st' l'] eqn:El.
      * constructor.
      * constructor; assumption.
    + constructor.
Qed.

(** Every state of a session but the last has [gameEnd] false: no reducer
    is applied to a state that has ended. *)
Lemma createGameSession_running (rs : list Reducer) :
  Forall (fun st => gameEnd st = false) (removelast (createGameSession rs)).
Proof.
  unfold createGameSession.
  eapply Forall_impl; [|apply takeWhileInclusive_last].
  intros st H. simpl in H. apply negb_true_iff in H. exact H.
Qed.

(** ** The terminal flag *)

(** C1, as the specification states it, fails: [jump] has no test of
    [gameEnd], and on an ended state with the bird at rest it returns a
    different state. *)
Lemma jump_changes_ended_state :
  ~ (forall s : State, gameEnd s = true -> tick s = s /\ jump s = s).
Proof.
  intro H. destruct (H endedState eq_refl) as [_ Hj].
  apply (f_equal (fun s => verticalVelocity (bird s))) in Hj.
  vm_compute in Hj. discriminate Hj.
Qed.

(** C1, amended: on a state whose [gameEnd] is true, [tick] returns the state
    itself; [jump] returns it with the velocity of the bird set to
    [Constants.STRENGTH] and every other field as it was, so that it returns
    the same state exactly when the velocity already was [Constants.STRENGTH]. *)
Theorem ended_tick_identity_jump_velocity (s : State) :
  gameEnd s = true ->
  tick s = s /\
  (verticalVelocity (bird (jump s)) = Constants.STRENGTH /\
   verticalPosition (bird (jump s)) = verticalPosition (bird s) /\
   pipes (jump s) = pipes s /\
   score (jump s) = score s /\
   lives (jump s) = lives s /\
   gameEnd (jump s) = true /\
   gameTime (jump s) = gameTime s /\
   gameStarted (jump s) = gameStarted s) /\
  (jump s = s <-> verticalVelocity (bird s) = Constants.STRENGTH).
Proof.
  intro H. split; [apply tick_ended; assumption|]. split.
  - simpl. repeat split. assumption.
  - split.
    + intro Hj. apply (f_equal (fun st => verticalVelocity (bird st))) in Hj.
      simpl in Hj. symmetry. exact Hj.
    + intro Hv. destruct s as [[y v] ps sc lv ge gt gs].
      simpl in Hv. subst v. reflexivity.
Qed.

Lemma ended_tick_identity_jump_velocity_witness :
  tick endedState = endedState /\
  verticalVelocity (bird (jump endedState)) = Constants.STRENGTH.
Proof.
  destruct (ended_tick_identity_jump_velocity endedState eq_refl)
    as [Ht [[Hv _] _]].
  split; [exact Ht | exact Hv].
Defined.

(** ** One pipe *)

(** C6: when [processPipe] reports a collision, its score increase is [0]
    and the [passed] flag of the pipe is left as it was; hence no evaluation
    turns both [collided] and [passed] from false to true. *)
Theorem collision_excludes_score (pipe : Pipe) (x v y : number) :
  let r := processPipe pipe x v y in
  (PipeProcessResult.hitPipe r = true ->
   PipeProcessResult.scoreIncrease r = 0%Z /\
   passed (PipeProcessResult.pipe r) = passed pipe) /\
  ~ (collided pipe = false /\ collided (PipeProcessResult.pipe r) = true /\
     passed pipe = false /\ passed (PipeProcessResult.pipe r) = true).
Proof.
  unfold processPipe. simpl.
  destruct (collided pipe), (passed pipe), (inXRange pipe x),
    (inYGap pipe y), (horizontalPosition pipe + Constants.PIPE_WIDTH <? x);
    simpl; split; try (intro Hc; try discriminate Hc; split; reflexivity);
    intros [H1 [H2 [H3 H4]]]; discriminate.
Qed.

Lemma collision_excludes_score_witness :
  PipeProcessResult.scoreIncrease (processPipe (pipeAt 120) 180 0 10) = 0%Z /\
  passed (PipeProcessResult.pipe (processPipe (pipeAt 120) 180 0 10)) = false.
Proof.
  apply (proj1 (collision_excludes_score (pipeAt 120) 180 0 10)).
  vm_compute. reflexivity.
Defined.

(** ** One tick *)

(** C7: on a state that has not ended, the velocity of the bird after [tick]
    is the velocity after gravity plus the sum of the adjustments of all the
    pipes plus the boundary adjustment, and its position is the position
    before the tick plus that final velocity. *)
Theorem tick_bird (s : State) :
  gameEnd s = false ->
  let v' := verticalVelocity (bird s) + Constants.GRAVITY in
  let y' := verticalPosition (bird s) + v' in
  let pipeVelocityDelta :=
    sumNumber (map (fun pipe => PipeProcessResult.velocityAdjustment
                                  (processPipe pipe birdX v' y'))
                   (pipes s)) in
  let boundaryVelocityDelta :=
    createRandomVelocity v' (y' <=? 0) (y' >=? Viewport.CANVAS_HEIGHT)
      ((y' <=? 0) || (y' >=? Viewport.CANVAS_HEIGHT)) in
  verticalVelocity (bird (tick s)) =
    v' + pipeVelocityDelta + boundaryVelocityDelta /\
  verticalPosition (bird (tick s)) =
    verticalPosition (bird s) + verticalVelocity (bird (tick s)).
Proof.
  intro H. unfold tick. rewrite H. cbv zeta. split; [|reflexivity].
  cbn [bird verticalVelocity]. f_equal. f_equal.
  cbn [aggregatePipeResults Aggregate.pipeVelocityAdjustment].
  rewrite fold_left_add. unfold sumNumber, pipeResults.
  rewrite map_map. reflexivity.
Qed.

Lemma tick_bird_witness :
  verticalPosition (bird (tick (stateWith 10 0 [pipeAt 180]))) =
  10 + verticalVelocity (bird (tick (stateWith 10 0 [pipeAt 180]))).
Proof.
  exact (proj2 (tick_bird (stateWith 10 0 [pipeAt 180]) eq_refl)).
Defined.

(** C8: on a state that has not ended, [tick] returns [lives - 1] when an
    edge of the canvas is reached or at least one pipe is hit, however many
    pipes are hit, and the same [lives] otherwise. *)
Theorem tick_loses_one_life (s : State) :
  gameEnd s = false ->
  (losesLife s -> lives (tick s) = (lives s - 1)%Z) /\
  (~ losesLife s -> lives (tick s) = lives s).
Proof.
  intro H. rewrite (tick_lives s H).
  destruct ((hitTop s || hitBottom s)
            || Aggregate.hitPipe (aggregatePipeResults (pipeResults s)))
    eqn:E; split; intro Hl.
  - reflexivity.
  - exfalso. apply Hl. apply losesLife_bool. exact E.
  - apply losesLife_bool in Hl. congruence.
  - reflexivity.
Qed.

Lemma tick_loses_one_life_witness :
  lives (tick (stateWith 10 0 [pipeAt 180; pipeAt 170])) = 2%Z.
Proof.
  apply (proj1 (tick_loses_one_life
                  (stateWith 10 0 [pipeAt 180; pipeAt 170]) eq_refl)).
  right. right. exists (pipeAt 170). split.
  - simpl. right. left. reflexivity.
  - vm_compute. reflexivity.
Defined.

(** ** The fold of the reducers *)

(** C9: a reducer never raises [lives] and never lowers [score]: this holds
    for one application of [tick] or of [jump] (and of the reducer that
    spawns a pipe), and therefore from the start to the end of any sequence
    of them folded by [scan]. *)
Theorem lives_score_monotone :
  (forall s : State,
     (lives (tick s) <= lives s)%Z /\ (score s <= score (tick s))%Z) /\
  (forall s : State,
     (lives (jump s) <= lives s)%Z /\ (score s <= score (jump s))%Z) /\
  (forall (rs : list Reducer) (s : State),
     (lives (scan rs s) <= lives s)%Z /\ (score s <= score (scan rs s))%Z).
Proof.
  split; [exact tick_monotone|]. split; [intro s; simpl; lia|].
  induction rs as [|r rs IH]; intro s.
  - simpl. lia.
  - unfold scan in *. simpl.
    destruct (IH (reducerFn r s)) as [Hl Hs].
    destruct (reducerFn_monotone r s) as [Hl' Hs']. lia.
Qed.

(** ** The totals of a tick *)

(** C10: the score increase, the any-hit flag and the velocity adjustment of
    a tick range over every pipe of the state the tick starts from, whether
    or not the filter on the advanced pipes retains it: the score grows by
    the sum over all of them, the velocity by the sum over all of them, a
    hit of any of them costs the life, and the score increase of any single
    one of them is part of the new score. *)
Theorem tick_totals_over_all_pipes (s : State) :
  gameEnd s = false ->
  let rs := map (evalPipe s) (pipes s) in
  score (tick s) =
    (score s + sumZ (map PipeProcessResult.scoreIncrease rs))%Z /\
  verticalVelocity (bird (tick s)) =
    (verticalVelocity (bird s) + Constants.GRAVITY)
    + sumNumber (map PipeProcessResult.velocityAdjustment rs)
    + boundaryVelocityAdjustment s /\
  forall pipe : Pipe,
    In pipe (pipes s) ->
    (PipeProcessResult.hitPipe (evalPipe s pipe) = true ->
     lives (tick s) = (lives s - 1)%Z) /\
    (score s + PipeProcessResult.scoreIncrease (evalPipe s pipe)
     <= score (tick s))%Z.
Proof.
  intros H rs. split; [|split].
  - rewrite (tick_score s H). rewrite totalScoreIncrease_sum. reflexivity.
  - unfold tick. rewrite H. cbn [bird verticalVelocity].
    cbn [aggregatePipeResults Aggregate.pipeVelocityAdjustment].
    rewrite fold_left_add. reflexivity.
  - intros p Hin. split.
    + intro Hhit. rewrite (tick_lives s H).
      replace (Aggregate.hitPipe (aggregatePipeResults (pipeResults s)))
        with true.
      * rewrite orb_true_r. reflexivity.
      * symmetry. apply existsb_hitPipe. exists p. split; assumption.
    + rewrite (tick_score s H). rewrite totalScoreIncrease_sum.
      assert (PipeProcessResult.scoreIncrease (evalPipe s p)
              <= sumZ (map PipeProcessResult.scoreIncrease
                           (map (evalPipe s) (pipes s))))%Z as Hle.
      { apply sumZ_In; [apply scoreIncreases_nonneg|].
        apply in_map. apply in_map. assumption. }
      lia.
Qed.

(** A pipe that the tick removes still scores: its trailing edge is at [3]
    before the tick and at [0] after, the retained list is empty, and its
    score increase is in the new score. *)
Lemma tick_totals_over_all_pipes_witness :
  pipes (tick lastPipeLeaving) = [] /\
  (1 <= score (tick lastPipeLeaving))%Z.
Proof.
  split; [vm_compute; reflexivity|].
  destruct (tick_totals_over_all_pipes lastPipeLeaving eq_refl)
    as [_ [_ Hp]].
  destruct (Hp (pipeAt (-47)) (or_introl eq_refl)) as [_ Hs].
  exact Hs.
Defined.

(** ** Malformed records of the schedule *)

(** C2, as the specification states it, fails: the record [abc,0.5,1] gives a
    pipe whose [gapY] is [NaN], and that pipe is hit by a bird that overlaps
    it horizontally, both where the parser puts it and once it has reached
    the bird of the game; it also scores for a bird to the right of it. *)
Lemma malformed_record_collides :
  let pipe := parsePipeLine NumberDecimal malformedLine in
  NumberDecimal "abc" = NaN /\ gapY pipe = NaN /\
  PipeProcessResult.hitPipe (processPipe pipe 600 0 200) = true /\
  PipeProcessResult.hitPipe
    (evalPipe (stateWith 200 0 []) (movedTo 198 pipe)) = true /\
  PipeProcessResult.scoreIncrease (processPipe pipe 700 0 200) = 1%Z.
Proof. vm_compute. repeat split; reflexivity. Qed.

(** C2, amended: a field that [Number] sends to [NaN] makes the pipe field
    computed from it [NaN].  A pipe whose [gapY] or [gapHeight] is [NaN]
    fails the vertical gap test at every height, so [processPipe] reports a
    hit exactly when the pipe has not collided before and the bird overlaps
    it horizontally, and a score increase of [1] exactly when the pipe has
    neither passed nor collided, is not overlapped, and has its trailing edge
    to the left of the bird; when [gapY] is [NaN] the velocity adjustment
    is [0]. *)
Theorem malformed_record_pipe
    (Number : string -> number) (line : string) (x v y : number) :
  let fields := map Number (split line) in
  let pipe := parsePipeLine Number line in
  (nth 0 fields NaN = NaN -> gapY pipe = NaN) /\
  (nth 1 fields NaN = NaN -> gapHeight pipe = NaN) /\
  (nth 2 fields NaN = NaN -> time pipe = NaN) /\
  forall p : Pipe,
    gapY p = NaN \/ gapHeight p = NaN ->
    inYGap p y = false /\
    PipeProcessResult.hitPipe (processPipe p x v y) =
      negb (collided p) && inXRange p x /\
    PipeProcessResult.scoreIncrease (processPipe p x v y) =
      (if negb (passed p) && negb (collided p || inXRange p x)
          && (horizontalPosition p + Constants.PIPE_WIDTH <? x)
       then 1%Z else 0%Z) /\
    (gapY p = NaN ->
     PipeProcessResult.velocityAdjustment (processPipe p x v y) = 0).
Proof.
  cbv zeta. unfold parsePipeLine. cbn [gapY gapHeight time].
  split; [|split; [|split]]; try (intros ->; reflexivity).
  intros p Hp. pose proof (inYGap_NaN p y Hp) as Hy.
  destruct (processPipe_no_gap p x v y Hy) as [Hh Hs].
  repeat split; try assumption.
  apply processPipe_NaN_gapY.
Qed.

Lemma malformed_record_pipe_witness :
  gapY (parsePipeLine NumberDecimal malformedLine) = NaN /\
  PipeProcessResult.hitPipe
    (processPipe (parsePipeLine NumberDecimal malformedLine) 600 0 200) =
  negb (collided (parsePipeLine NumberDecimal malformedLine))
  && inXRange (parsePipeLine NumberDecimal malformedLine) 600.
Proof.
  destruct (malformed_record_pipe NumberDecimal malformedLine 600 0 200)
    as [Hy [_ [_ Hp]]].
  assert (gapY (parsePipeLine NumberDecimal malformedLine) = NaN) as Hg.
  { apply Hy. vm_compute. reflexivity. }
  split; [exact Hg|].
  destruct (Hp (parsePipeLine NumberDecimal malformedLine) (or_introl Hg))
    as [_ [Hh _]].
  exact Hh.
Defined.

(** ** The random velocity *)

(** C3, as the specification states it, fails.  With both [hitTop] and
    [hitBottom] set the value is the one of the top, which is not in
    [[-10, -5]]; and at velocity [-1235] the seed is [-1], the hash is
    negative, and the value for the top is below [5]. *)
Lemma createRandomVelocity_out_of_range :
  createRandomVelocity 0 true true true = Fin (11903377450 # 2147483647) /\
  ~ inRange (-10) (-5) (createRandomVelocity 0 true true true) /\
  RNG.hash (Constants.SEED + (-1235)) = Fin (-1103502900) /\
  createRandomVelocity (-1235) true false true
    = Fin (5219903735 # 2147483647) /\
  ~ inRange 5 10 (createRandomVelocity (-1235) true false true).
Proof.
  split; [vm_compute; reflexivity|]. split.
  - vm_compute. intros [_ H]. apply H. reflexivity.
  - split; [vm_compute; reflexivity|]. split; [vm_compute; reflexivity|].
    vm_compute. intros [H _]. apply H. reflexivity.
Qed.

(** C3, amended: for every velocity whose hash lies in [[0, m - 1]],
    [createRandomVelocity] returns a value in [[5, 10]] when [hasCollision]
    and [hitTop] hold, and a value in [[-10, -5]] when [hasCollision] and
    [hitBottom] hold and [hitTop] does not; for every velocity it returns
    [0] when [hasCollision] holds with neither side, and when [hasCollision]
    is false. *)
Theorem createRandomVelocity_range
    (velocity : number) (hitTop hitBottom : bool) :
  (forall h : Q,
     RNG.hash (Constants.SEED + velocity) = Fin h ->
     (0 <= h)%Q -> (h <= 2147483647)%Q ->
     inRange 5 10 (createRandomVelocity velocity true hitBottom true) /\
     inRange (-10) (-5) (createRandomVelocity velocity false true true)) /\
  createRandomVelocity velocity false false true = 0 /\
  createRandomVelocity velocity hitTop hitBottom false = 0.
Proof.
  split; [|split; reflexivity].
  intros h Hh H0 H1. exact (collision_value_range velocity h hitBottom Hh H0 H1).
Qed.

Lemma createRandomVelocity_range_witness :
  inRange 5 10 (createRandomVelocity 0 true false true) /\
  inRange (-10) (-5) (createRandomVelocity 0 false true true).
Proof.
  apply (proj1 (createRandomVelocity_range 0 false false) 233191843).
  - vm_compute. reflexivity.
  - vm_compute. discriminate.
  - vm_compute. discriminate.
Defined.

(** ** The boundary example *)

(** C4, as the specification states it, fails: from position [0] and
    velocity [2] the position after gravity is [2.4], below the top edge, so
    that no boundary collision is flagged, no life is lost and the boundary
    velocity delta is [0]. *)
Lemma boundary_example_no_collision :
  newPosition boundaryExample = Fin (12 # 5) /\
  hitTop boundaryExample || hitBottom boundaryExample = false /\
  lives (tick boundaryExample) <> (lives boundaryExample - 1)%Z /\
  boundaryVelocityAdjustment boundaryExample = 0.
Proof.
  vm_compute. repeat split; try reflexivity. discriminate.
Qed.

(** C4, amended: from position [0] and velocity [2] one [tick] flags no
    boundary collision, keeps [lives] and adds no boundary velocity delta:
    the bird ends at position and velocity [2.4].  From position [0] and
    velocity [-2] the position after gravity is [-1.6]: the collision with
    the top is flagged, [lives] goes down by exactly [1], and the boundary
    velocity delta lies in [[5, 10]]. *)
Theorem boundary_example_tick :
  (hitTop boundaryExample = false /\
   hitBottom boundaryExample = false /\
   lives (tick boundaryExample) = lives boundaryExample /\
   boundaryVelocityAdjustment boundaryExample = 0 /\
   bird (tick boundaryExample) =
     {| verticalPosition := Fin (12 # 5);
        verticalVelocity := Fin (12 # 5) |}) /\
  (newPosition boundaryExampleUp = Fin (-8 # 5) /\
   hitTop boundaryExampleUp = true /\
   lives (tick boundaryExampleUp) = (lives boundaryExampleUp - 1)%Z /\
   inRange 5 10 (boundaryVelocityAdjustment boundaryExampleUp) /\
   verticalVelocity (bird (tick boundaryExampleUp)) =
     newVelocity boundaryExampleUp
     + boundaryVelocityAdjustment boundaryExampleUp).
Proof.
  split.
  - vm_compute. repeat split; reflexivity.
  - split; [vm_compute; reflexivity|]. split; [vm_compute; reflexivity|].
    split; [vm_compute; reflexivity|]. split.
    + vm_compute. split; discriminate.
    + vm_compute. reflexivity.
Qed.

(** ** The ghost replay *)

(** C5, as the specification states it, fails: for the path [[1; 2]] the
    ghost emits the position [1], then [null] in the place of the position
    [2], and then completes; it does not emit the two positions followed by
    [null]. *)
Lemma ghost_drops_last_position :
  Rx.emissions (createGhost [Fin 1; Fin 2]) 3 =
    [Some (Some (Fin 1)); Some None; None] /\
  Rx.emissions (createGhost [Fin 1; Fin 2]) 3 <>
    [Some (Some (Fin 1)); Some (Some (Fin 2)); Some None].
Proof.
  split; [vm_compute; reflexivity|]. vm_compute. discriminate.
Qed.

(** C5, amended: for a recorded path of length [N] the ghost emits exactly
    [N] values and then completes: the position [path[i]] at every tick
    [i < N - 1], and [null] at tick [N - 1]; the last recorded position is
    not replayed, and the empty path emits nothing. *)
Theorem createGhost_emissions (path : list number) :
  (forall i : nat,
     (i + 1 < List.length path)%nat ->
     exists y : number,
       nth_error path i = Some y /\ createGhost path i = Some (Some y)) /\
  (forall i : nat,
     (i + 1 = List.length path)%nat -> createGhost path i = Some None) /\
  (forall i : nat,
     (List.length path <= i)%nat -> createGhost path i = None).
Proof.
  unfold createGhost, Rx.map, Rx.take, Rx.interval, pathLength, pathAt.
  split; [|split]; intros i Hi.
  - destruct (nth_error path i) as [y|] eqn:E.
    + exists y. split; [reflexivity|].
      destruct (Z.ltb_spec (Z.of_nat i) (Z.of_nat (List.length path)));
        [|lia].
      simpl.
      destruct (Z.ltb_spec (Z.of_nat i) (Z.of_nat (List.length path) - 1));
        [|lia].
      rewrite Nat2Z.id. rewrite E. reflexivity.
    + apply nth_error_None in E. lia.
  - destruct (Z.ltb_spec (Z.of_nat i) (Z.of_nat (List.length path)));
      [|lia].
    simpl.
    destruct (Z.ltb_spec (Z.of_nat i) (Z.of_nat (List.length path) - 1));
      [lia|].
    reflexivity.
  - destruct (Z.ltb_spec (Z.of_nat i) (Z.of_nat (List.length path)));
      [lia|].
    reflexivity.
Qed.

Lemma createGhost_emissions_witness :
  (exists y : number,
     nth_error [Fin 1; Fin 2; Fin 3] 1%nat = Some y /\
     createGhost [Fin 1; Fin 2; Fin 3] 1%nat = Some (Some y)) /\
  createGhost [Fin 1; Fin 2; Fin 3] 2%nat = Some None /\
  createGhost [Fin 1; Fin 2; Fin 3] 3%nat = None.
Proof.
  destruct (createGhost_emissions [Fin 1; Fin 2; Fin 3]) as [Hp [Hn Hc]].
  split; [apply Hp; simpl; lia|].
  split; [apply Hn; reflexivity | apply Hc; simpl; lia].
Defined.

(** * Further properties of the code *)

(** ** One pipe over its life *)

Lemma processPipe_collided (pipe : Pipe) (x v y : number) :
  collided pipe = true ->
  collided (PipeProcessResult.pipe (processPipe pipe x v y)) = true /\
  PipeProcessResult.hitPipe (processPipe pipe x v y) = false /\
  PipeProcessResult.scoreIncrease (processPipe pipe x v y) = 0%Z.
Proof.
  intro H. unfold processPipe. simpl. rewrite H. simpl.
  rewrite andb_false_r. repeat split; reflexivity.
Qed.

Lemma processPipe_passed (pipe : Pipe) (x v y : number) :
  passed pipe = true ->
  passed (PipeProcessResult.pipe (processPipe pipe x v y)) = true /\
  PipeProcessResult.scoreIncrease (processPipe pipe x v y) = 0%Z.
Proof.
  intro H. unfold processPipe. simpl. rewrite H. simpl.
  split; reflexivity.
Qed.

Lemma processPipe_hit_sets_collided (pipe : Pipe) (x v y : number) :
  PipeProcessResult.hitPipe (processPipe pipe x v y) = true ->
  collided (PipeProcessResult.pipe (processPipe pipe x v y)) = true.
Proof.
  unfold processPipe. simpl. intro H. rewrite H. apply orb_true_r.
Qed.

Lemma processPipe_score_sets_passed (pipe : Pipe) (x v y : number) :
  PipeProcessResult.scoreIncrease (processPipe pipe x v y) = 1%Z ->
  passed (PipeProcessResult.pipe (processPipe pipe x v y)) = true.
Proof.
  unfold processPipe. simpl.
  destruct (negb (passed pipe) && _ && _).
  - intros _. apply orb_true_r.
  - discriminate.
Qed.

Lemma track_collided (birds : list (number * number * number)) :
  forall pipe : Pipe,
    collided pipe = true ->
    filter PipeProcessResult.hitPipe (track pipe birds) = [] /\
    sumZ (map PipeProcessResult.scoreIncrease (track pipe birds)) = 0%Z.
Proof.
  induction birds as [|[[x v] y] rest IH]; intros pipe H.
  - split; reflexivity.
  - destruct (processPipe_collided pipe x v y H) as [Hc [Hh Hs]].
    destruct (IH _ Hc) as [IHh IHs].
    cbn [track filter map]. rewrite Hh. split; [exact IHh|].
    unfold sumZ in *. cbn [fold_right]. rewrite Hs, IHs. reflexivity.
Qed.

Lemma track_passed (birds : list (number * number * number)) :
  forall pipe : Pipe,
    passed pipe = true ->
    sumZ (map PipeProcessResult.scoreIncrease (track pipe birds)) = 0%Z.
Proof.
  induction birds as [|[[x v] y] rest IH]; intros pipe H.
  - reflexivity.
  - destruct (processPipe_passed pipe x v y H) as [Hp Hs].
    cbn [track map]. unfold sumZ in *. cbn [fold_right].
    rewrite Hs, (IH _ Hp). reflexivity.
Qed.

(** X1: over the successive evaluations of one pipe, whatever the bird does,
    at most one evaluation reports a hit and the score increases sum to at
    most [1]. *)
Theorem track_one_shot (birds : list (number * number * number)) :
  forall pipe : Pipe,
    (List.length (filter PipeProcessResult.hitPipe (track pipe birds)) <= 1)%nat
    /\
    (0 <= sumZ (map PipeProcessResult.scoreIncrease (track pipe birds)) <= 1)%Z.
Proof.
  induction birds as [|[[x v] y] rest IH]; intro pipe.
  - simpl. unfold sumZ. simpl. split; lia.
  - destruct (IH (PipeProcessResult.pipe (processPipe pipe x v y)))
      as [IHh IHs].
    pose proof (scoreIncrease_range pipe x v y) as Hr.
    split.
    + cbn [track filter].
      destruct (PipeProcessResult.hitPipe (processPipe pipe x v y)) eqn:Eh.
      * apply processPipe_hit_sets_collided in Eh.
        destruct (track_collided rest _ Eh) as [Hn _].
        cbn [List.length]. rewrite Hn. simpl. lia.
      * exact IHh.
    + cbn [track map]. unfold sumZ in *. cbn [fold_right].
      destruct (Z.eq_dec
                  (PipeProcessResult.scoreIncrease (processPipe pipe x v y))
                  1) as [E1|E1].
      * pose proof (processPipe_score_sets_passed pipe x v y E1) as Hp.
        pose proof (track_passed rest _ Hp) as Hz. unfold sumZ in Hz.
        rewrite Hz. lia.
      * lia.
Qed.

(** X2: once an evaluation of a pipe has reported a hit, no later evaluation
    of that pipe reports a hit or increases the score. *)
Theorem track_after_hit
    (pipe : Pipe) (x v y : number) (birds : list (number * number * number)) :
  PipeProcessResult.hitPipe (processPipe pipe x v y) = true ->
  let later := track (PipeProcessResult.pipe (processPipe pipe x v y)) birds in
  Forall (fun r => PipeProcessResult.hitPipe r = false /\
                   PipeProcessResult.scoreIncrease r = 0%Z) later.
Proof.
  intro Hh. apply processPipe_hit_sets_collided in Hh.
  revert Hh. generalize (PipeProcessResult.pipe (processPipe pipe x v y)).
  induction birds as [|[[x' v'] y'] rest IH]; intros p Hc; cbv zeta.
  - constructor.
  - destruct (processPipe_collided p x' v' y' Hc) as [Hc' [Hh' Hs']].
    cbn [track]. constructor.
    + split; assumption.
    + apply IH. exact Hc'.
Qed.

Lemma track_after_hit_witness :
  Forall (fun r => PipeProcessResult.hitPipe r = false /\
                   PipeProcessResult.scoreIncrease r = 0%Z)
         (track (PipeProcessResult.pipe (processPipe (pipeAt 120) 180 0 10))
                [(Fin 180, Fin 0, Fin 10); (Fin 180, Fin 0, Fin 10)]).
Proof.
  apply (track_after_hit (pipeAt 120) 180 0 10).
  vm_compute. reflexivity.
Defined.

(** ** The tests of [processPipe] on finite numbers *)

Lemma lt_Fin (a b : Q) : (Fin a <? Fin b) = true <-> (a < b)%Q.
Proof.
  unfold lt, cmp. rewrite negb_true_iff. split; intro H.
  - apply Qnot_le_lt. intro Hle. apply Qle_bool_iff in Hle. congruence.
  - destruct (Qle_bool b a) eqn:E; [|reflexivity].
    apply Qle_bool_iff in E. exfalso. apply (Qlt_not_le _ _ H E).
Qed.

Lemma gt_Fin (a b : Q) : (Fin a >? Fin b) = true <-> (b < a)%Q.
Proof. apply lt_Fin. Qed.

Lemma le_Fin (a b : Q) : (Fin a <=? Fin b) = true <-> (a <= b)%Q.
Proof. apply Qle_bool_iff. Qed.

Lemma ge_Fin (a b : Q) : (Fin a >=? Fin b) = true <-> (b <= a)%Q.
Proof. apply Qle_bool_iff. Qed.

Lemma half_width : Birb.WIDTH / 2 = Fin 21.
Proof. reflexivity. Qed.

Lemma inXRange_Fin (hp gy gh x : Q) (t : number) (c p : bool) :
  inXRange (finitePipe hp gy gh t c p) (Fin x) = true <->
  (hp < x + 21 /\ x - 21 < hp + 50)%Q.
Proof.
  unfold inXRange, finitePipe. cbn [horizontalPosition].
  rewrite half_width. unfold Constants.PIPE_WIDTH.
  rewrite andb_true_iff. unfold add, sub, lift2.
  rewrite gt_Fin, lt_Fin, !Qred_correct. tauto.
Qed.

Lemma inYGap_Fin (hp gy gh y : Q) (t : number) (c p : bool) :
  inYGap (finitePipe hp gy gh t c p) (Fin y) = true <->
  (gy - gh / 2 < y /\ y < gy + gh / 2)%Q.
Proof.
  unfold inYGap, finitePipe. cbn [gapY gapHeight].
  rewrite andb_true_iff. unfold add, sub, div, lift2.
  change (Qeq_bool 2 0) with false. cbv iota.
  rewrite gt_Fin, lt_Fin, !Qred_correct. tauto.
Qed.



(** X5: the velocity adjustment of [processPipe] is [0] when there is no
    hit; on a hit with the hash in [[0, m - 1]] it lies in [[5, 10]] when
    the bird is above the centre of the gap and in [[-10, -5]] when it is at
    or below it. *)
Theorem processPipe_knockback (pipe : Pipe) (x v y : number) :
  let r := processPipe pipe x v y in
  (PipeProcessResult.hitPipe r = false ->
   PipeProcessResult.velocityAdjustment r = 0) /\
  (forall h gy yq : Q,
     RNG.hash (Constants.SEED + v) = Fin h ->
     (0 <= h)%Q -> (h <= 2147483647)%Q ->
     gapY pipe = Fin gy -> y = Fin yq ->
     PipeProcessResult.hitPipe r = true ->
     ((yq < gy)%Q -> inRange 5 10 (PipeProcessResult.velocityAdjustment r)) /\
     ((gy <= yq)%Q ->
      inRange (-10) (-5) (PipeProcessResult.velocityAdjustment r))).
Proof.
  cbv zeta. unfold processPipe.
  cbn [PipeProcessResult.hitPipe PipeProcessResult.velocityAdjustment].
  set (hit := negb (collided pipe) && _ && _). split.
  - intros ->. reflexivity.
  - intros h gy yq Hh H0 H1 Hg -> ->. rewrite Hg. cbn [andb].
    destruct (collision_value_range v h true Hh H0 H1) as [Htop Hbot].
    split; intro Hy.
    + apply lt_Fin in Hy. rewrite Hy.
      destruct (collision_value_range v h (Fin yq >=? Fin gy) Hh H0 H1)
        as [Ht _]. exact Ht.
    + assert ((Fin yq <? Fin gy) = false) as Hn.
      { destruct (Fin yq <? Fin gy) eqn:E; [|reflexivity].
        apply lt_Fin in E. exfalso. apply (Qlt_not_le _ _ E Hy). }
      apply ge_Fin in Hy. rewrite Hn, Hy. exact Hbot.
Qed.

Lemma processPipe_knockback_witness :
  inRange 5 10
    (PipeProcessResult.velocityAdjustment (processPipe (pipeAt 120) 180 0 10)).
Proof.
  assert (RNG.hash (Constants.SEED + 0) = Fin 233191843) as Hh
    by (vm_compute; reflexivity).
  assert (0 <= 233191843)%Q as H0 by (vm_compute; discriminate).
  assert (233191843 <= 2147483647)%Q as H1 by (vm_compute; discriminate).
  assert (PipeProcessResult.hitPipe (processPipe (pipeAt 120) 180 0 10)
          = true) as Hhit by (vm_compute; reflexivity).
  assert (10 < 200)%Q as Hy by (vm_compute; reflexivity).
  exact (proj1 (proj2 (processPipe_knockback (pipeAt 120) 180 0 10)
                      233191843 200 10 Hh H0 H1 eq_refl eq_refl Hhit) Hy).
Defined.

(** ** A tick without a collision *)

Lemma add_0_r_sum (a b : number) : (a + b) + 0 = a + b.
Proof.
  destruct a as [|qa], b as [|qb]; try reflexivity.
  unfold add, lift2. f_equal. apply Qred_complete.
  rewrite Qred_correct. ring.
Qed.

Lemma fold_zero_adjustments (l : list PipeProcessResult.t) :
  Forall (fun r => PipeProcessResult.velocityAdjustment r = 0) l ->
  fold_left (fun sum result =>
               sum + PipeProcessResult.velocityAdjustment result) l (Fin 0)
  = 0.
Proof.
  induction 1 as [|r l Hr _ IH].
  - reflexivity.
  - simpl. rewrite Hr. exact IH.
Qed.

Lemma no_loss_adjustments (s : State) :
  ~ losesLife s ->
  hitTop s = false /\ hitBottom s = false /\
  Aggregate.hitPipe (aggregatePipeResults (pipeResults s)) = false /\
  Aggregate.pipeVelocityAdjustment (aggregatePipeResults (pipeResults s)) = 0
  /\ boundaryVelocityAdjustment s = 0.
Proof.
  intro Hn.
  assert ((hitTop s || hitBottom s)
          || Aggregate.hitPipe (aggregatePipeResults (pipeResults s)) = false)
    as Hb.
  { destruct (_ || _) eqn:E; [|reflexivity].
    exfalso. apply Hn. apply losesLife_bool. exact E. }
  apply orb_false_iff in Hb. destruct Hb as [Hb Hp].
  apply orb_false_iff in Hb. destruct Hb as [Ht Hbo].
  repeat split; try assumption.
  - cbn [aggregatePipeResults Aggregate.pipeVelocityAdjustment].
    apply fold_zero_adjustments. apply Forall_forall. intros r Hr.
    rewrite evalPipe_results in Hr. apply in_map_iff in Hr.
    destruct Hr as [p [<- Hin]].
    assert (PipeProcessResult.hitPipe (evalPipe s p) = false) as Hh.
    { destruct (PipeProcessResult.hitPipe (evalPipe s p)) eqn:E;
        [|reflexivity].
      exfalso. apply Hn. right. right. exists p. split; assumption. }
    unfold evalPipe, processPipe in *.
    cbn [PipeProcessResult.hitPipe PipeProcessResult.velocityAdjustment] in *.
    rewrite Hh. reflexivity.
  - unfold boundaryVelocityAdjustment. rewrite Ht, Hbo. reflexivity.
Qed.

Lemma tick_free_fall (s : State) :
  gameEnd s = false -> ~ losesLife s ->
  bird (tick s) =
    {| verticalPosition :=
         verticalPosition (bird s)
         + (verticalVelocity (bird s) + Constants.GRAVITY);
       verticalVelocity := verticalVelocity (bird s) + Constants.GRAVITY |}.
Proof.
  intros He Hn.
  destruct (no_loss_adjustments s Hn) as [_ [_ [_ [Hp Hb]]]].
  unfold tick. rewrite He. cbn [bird]. rewrite Hp, Hb.
  unfold newVelocity. rewrite !add_0_r_sum. reflexivity.
Qed.

(** X6: a tick of a running state in which the bird reaches no edge and hits
    no pipe is a step of free fall: the velocity grows by [GRAVITY], the
    position by the new velocity, and [lives] is kept. *)
Theorem tick_without_collision (s : State) :
  gameEnd s = false -> ~ losesLife s ->
  verticalVelocity (bird (tick s)) =
    verticalVelocity (bird s) + Constants.GRAVITY /\
  verticalPosition (bird (tick s)) =
    verticalPosition (bird s)
    + (verticalVelocity (bird s) + Constants.GRAVITY) /\
  lives (tick s) = lives s.
Proof.
  intros He Hn. rewrite (tick_free_fall s He Hn). cbn [verticalVelocity
    verticalPosition]. repeat split.
  rewrite (tick_lives s He).
  destruct (no_loss_adjustments s Hn) as [Ht [Hb [Hp _]]].
  rewrite Ht, Hb, Hp. reflexivity.
Qed.

Lemma initialState_no_loss : ~ losesLife initialState.
Proof.
  intros [H|[H|[p [[] _]]]]; vm_compute in H; discriminate H.
Qed.

Lemma tick_without_collision_witness :
  verticalVelocity (bird (tick initialState)) = 0 + Constants.GRAVITY /\
  verticalPosition (bird (tick initialState)) =
    Viewport.CANVAS_HEIGHT / 2 + (0 + Constants.GRAVITY) /\
  lives (tick initialState) = 3%Z.
Proof.
  exact (tick_without_collision initialState eq_refl initialState_no_loss).
Defined.

(** X7: a jump erases the velocity that the bird had: two states that differ
    in that velocity only jump to the same state, a second jump changes
    nothing, and the tick after a jump, when it has no collision, leaves the
    velocity at [STRENGTH + GRAVITY] and moves the bird by that much. *)
Theorem jump_then_tick (s : State) (v : number) :
  jump (withVelocity v s) = jump s /\
  jump (jump s) = jump s /\
  (gameEnd s = false -> ~ losesLife (jump s) ->
   verticalVelocity (bird (tick (jump s))) =
     Constants.STRENGTH + Constants.GRAVITY /\
   verticalPosition (bird (tick (jump s))) =
     verticalPosition (bird s)
     + (Constants.STRENGTH + Constants.GRAVITY)).
Proof.
  split; [reflexivity|]. split; [reflexivity|].
  intros He Hn. rewrite (tick_free_fall (jump s) He Hn).
  split; reflexivity.
Qed.

Lemma jump_then_tick_witness :
  verticalVelocity (bird (tick (jump initialState))) = Fin (-33 # 5) /\
  verticalPosition (bird (tick (jump initialState))) = Fin (967 # 5).
Proof.
  destruct (jump_then_tick initialState 0) as [_ [_ H]].
  apply H; [reflexivity|].
  intros [Hl|[Hl|[p [[] _]]]]; vm_compute in Hl; discriminate Hl.
Defined.

(** ** What the fold of the reducers keeps *)

Lemma tick_gameEnd (s : State) :
  gameEnd s = false ->
  gameEnd (tick s) =
  (lives (tick s) <=? 0)%Z
  || (gameStarted s && (List.length (pipes (tick s)) =? 0)%nat).
Proof. intro H. unfold tick. rewrite H. reflexivity. Qed.

Lemma tick_gameStarted (s : State) : gameStarted (tick s) = gameStarted s.
Proof. unfold tick. destruct (gameEnd s); reflexivity. Qed.

Lemma tick_playable (s : State) : playable s -> playable (tick s).
Proof.
  intros [Hl [Hs [He Hp]]].
  destruct (gameEnd s) eqn:E.
  - rewrite (tick_ended s E). repeat split; try lia.
    + intros _. exact E.
    + intros _ H. congruence.
  - assert (0 < lives s)%Z as Hpos.
    { destruct (Z_lt_le_dec 0 (lives s)) as [H|H]; [exact H|].
      specialize (He H). congruence. }
    destruct (tick_monotone s) as [Hm1 Hm2].
    pose proof (tick_gameEnd s E) as Hg.
    pose proof (tick_lives s E) as Hlv.
    assert (lives s - 1 <= lives (tick s))%Z as Hlo.
    { rewrite Hlv.
      destruct ((hitTop s || hitBottom s)
                || Aggregate.hitPipe (aggregatePipeResults (pipeResults s)));
        lia. }
    repeat split; try lia.
    + intro H0. rewrite Hg. apply orb_true_iff. left.
      apply Z.leb_le. exact H0.
    + rewrite tick_gameStarted. intros Hst Hne Hnil.
      rewrite Hg, Hst, Hnil in Hne. simpl in Hne.
      rewrite orb_true_r in Hne. discriminate Hne.
Qed.

Lemma reducerFn_playable (r : Reducer) (s : State) :
  playable s -> playable (reducerFn r s).
Proof.
  destruct r as [| |p]; [apply tick_playable| |];
    intros [Hl [Hs [He Hp]]]; repeat split; simpl; try assumption;
    try apply Hl.
  intros _ _ H. apply app_eq_nil in H. destruct H as [_ H]. discriminate H.
Qed.

(** X8: in every state that the fold reaches from [initialState], whatever
    the sequence of ticks, jumps and spawned pipes, [lives] is between [0]
    and [3], [score] is not negative, a state without lives has ended, and a
    started game that has not ended has at least one pipe. *)
Theorem scan_playable (rs : list Reducer) :
  let s := scan rs initialState in
  (0 <= lives s <= 3)%Z /\
  (0 <= score s)%Z /\
  ((lives s <= 0)%Z -> gameEnd s = true) /\
  (gameStarted s = true -> gameEnd s = false -> pipes s <> []).
Proof.
  cbv zeta. change (playable (scan rs initialState)).
  assert (playable initialState) as H0.
  { repeat split; simpl; try lia; discriminate. }
  revert H0. generalize initialState.
  induction rs as [|r rs IH]; intros s Hs.
  - exact Hs.
  - unfold scan in *. simpl. apply IH. apply reducerFn_playable. exact Hs.
Qed.

Lemma reducerFn_ended (r : Reducer) (s : State) :
  gameEnd s = true ->
  gameEnd (reducerFn r s) = true /\
  score (reducerFn r s) = score s /\
  lives (reducerFn r s) = lives s /\
  gameTime (reducerFn r s) = gameTime s /\
  verticalPosition (bird (reducerFn r s)) = verticalPosition (bird s).
Proof.
  intro H. destruct r as [| |p]; simpl.
  - rewrite (tick_ended s H). repeat split. exact H.
  - repeat split. exact H.
  - repeat split. exact H.
Qed.

(** X9: an ended state stays ended under every sequence of reducers, and its
    score, lives, game time and bird position never change again; only the
    velocity of the bird (by [jump]) and the pipes and [gameStarted] (by a
    spawn) still can. *)
Theorem scan_ended (rs : list Reducer) (s : State) :
  gameEnd s = true ->
  gameEnd (scan rs s) = true /\
  score (scan rs s) = score s /\
  lives (scan rs s) = lives s /\
  gameTime (scan rs s) = gameTime s /\
  verticalPosition (bird (scan rs s)) = verticalPosition (bird s).
Proof.
  revert s. induction rs as [|r rs IH]; intros s H.
  - repeat split. exact H.
  - destruct (reducerFn_ended r s H) as [He [Hs [Hl [Ht Hp]]]].
    unfold scan in *. simpl.
    destruct (IH _ He) as [He' [Hs' [Hl' [Ht' Hp']]]].
    repeat split; congruence.
Qed.

Lemma scan_ended_witness :
  gameEnd (scan [Jump; Tick; Spawn (pipeAt 600); Tick] endedState) = true /\
  score (scan [Jump; Tick; Spawn (pipeAt 600); Tick] endedState) = 0%Z /\
  lives (scan [Jump; Tick; Spawn (pipeAt 600); Tick] endedState) = 0%Z /\
  gameTime (scan [Jump; Tick; Spawn (pipeAt 600); Tick] endedState) = 0 /\
  verticalPosition
    (bird (scan [Jump; Tick; Spawn (pipeAt 600); Tick] endedState)) =
  verticalPosition initialBird.
Proof.
  exact (scan_ended [Jump; Tick; Spawn (pipeAt 600); Tick] endedState
                    eq_refl).
Defined.

(** X10: [gameStarted] is true after a sequence of reducers exactly when it
    was true before or the sequence spawns a pipe: it never reverts, and
    only a spawn sets it. *)
Theorem scan_gameStarted (rs : list Reducer) (s : State) :
  gameStarted (scan rs s) = gameStarted s || existsb isSpawn rs.
Proof.
  revert s. induction rs as [|r rs IH]; intro s.
  - simpl. rewrite orb_false_r. reflexivity.
  - unfold scan in *. simpl. rewrite IH.
    destruct r as [| |p]; simpl.
    + rewrite tick_gameStarted. reflexivity.
    + reflexivity.
    + rewrite orb_true_r. reflexivity.
Qed.

(** ** A schedule without pipes *)

Lemma tick_no_pipes (s : State) :
  pipes s = [] -> gameStarted s = false -> gameEnd s = false ->
  pipes (tick s) = [] /\ score (tick s) = score s /\
  gameEnd (tick s) = (lives (tick s) <=? 0)%Z.
Proof.
  intros Hp Hs He.
  assert (pipes (tick s) = []) as Hnil.
  { unfold tick. rewrite He. cbn [pipes]. unfold newPipes, pipeResults.
    rewrite Hp. reflexivity. }
  split; [exact Hnil|]. split.
  - rewrite (tick_score s He), totalScoreIncrease_sum, Hp. simpl.
    unfold sumZ. simpl. lia.
  - rewrite (tick_gameEnd s He), Hs. simpl. apply orb_false_r.
Qed.

Lemma reducerFn_no_spawn (r : Reducer) (s : State) :
  isSpawn r = false ->
  pipes s = [] /\ gameStarted s = false /\ score s = 0%Z /\
  (gameEnd s = true -> (lives s <= 0)%Z) ->
  pipes (reducerFn r s) = [] /\ gameStarted (reducerFn r s) = false /\
  score (reducerFn r s) = 0%Z /\
  (gameEnd (reducerFn r s) = true -> (lives (reducerFn r s) <= 0)%Z).
Proof.
  intros Hr [Hp [Hs [Hsc He]]]. destruct r as [| |p]; [| |discriminate Hr].
  - simpl. destruct (gameEnd s) eqn:E.
    + rewrite (tick_ended s E). repeat split; try assumption.
      intros _. apply He. reflexivity.
    + destruct (tick_no_pipes s Hp Hs E) as [Hp' [Hsc' Hg]].
      rewrite tick_gameStarted.
      repeat split; try assumption; try congruence.
      rewrite Hg. apply Z.leb_le.
  - simpl. repeat split; assumption.
Qed.

(** X11: when no pipe is ever spawned, every state reached from
    [initialState] has no pipe, has not started and has score [0], and the
    game has ended exactly when no life is left: the condition on the empty
    list of pipes never ends it. *)
Theorem scan_no_spawn (rs : list Reducer) :
  existsb isSpawn rs = false ->
  let s := scan rs initialState in
  pipes s = [] /\ gameStarted s = false /\ score s = 0%Z /\
  (gameEnd s = true <-> lives s = 0%Z).
Proof.
  intro Hrs. cbv zeta.
  assert (pipes (scan rs initialState) = [] /\
          gameStarted (scan rs initialState) = false /\
          score (scan rs initialState) = 0%Z /\
          (gameEnd (scan rs initialState) = true ->
           (lives (scan rs initialState) <= 0)%Z)) as H.
  { assert (pipes initialState = [] /\ gameStarted initialState = false /\
            score initialState = 0%Z /\
            (gameEnd initialState = true -> (lives initialState <= 0)%Z))
      as H0 by (repeat split; discriminate).
    revert Hrs H0. generalize initialState.
    induction rs as [|r rs IH]; intros s Hrs Hs.
    - exact Hs.
    - simpl in Hrs. apply orb_false_iff in Hrs. destruct Hrs as [Hr Hrs].
      unfold scan in *. simpl. apply (IH _ Hrs).
      apply reducerFn_no_spawn; assumption. }
  destruct H as [Hp [Hs [Hsc He]]].
  assert (playable (scan rs initialState)) as [Hl [_ [Hz _]]].
  { assert (playable initialState) as H0
      by (repeat split; simpl; try lia; discriminate).
    clear -H0. revert H0. generalize initialState.
    induction rs as [|r rs IH]; intros s Hs; [exact Hs|].
    unfold scan in *. simpl. apply IH. apply reducerFn_playable. exact Hs. }
  repeat split; try assumption.
  - intro Hend. specialize (He Hend). lia.
  - intro H0. apply Hz. lia.
Qed.

Lemma scan_no_spawn_witness :
  pipes (scan [Tick; Jump; Tick] initialState) = [] /\
  gameStarted (scan [Tick; Jump; Tick] initialState) = false /\
  score (scan [Tick; Jump; Tick] initialState) = 0%Z /\
  (gameEnd (scan [Tick; Jump; Tick] initialState) = true <->
   lives (scan [Tick; Jump; Tick] initialState) = 0%Z).
Proof.
  exact (scan_no_spawn [Tick; Jump; Tick] eq_refl).
Defined.

(** ** The pipes that a tick keeps *)

Lemma retained_iff (pipe : Pipe) :
  (horizontalPosition pipe - Constants.PIPE_SPEED + Constants.PIPE_WIDTH >? 0)
  = false <-> leaving pipe.
Proof.
  unfold leaving, Constants.PIPE_SPEED, Constants.PIPE_WIDTH.
  destruct (horizontalPosition pipe) as [|q].
  - split; [intros _; exact I | reflexivity].
  - unfold sub, add, lift2. split; intro H.
    + destruct (Qlt_le_dec (-47) q) as [Hlt|Hle]; [|exact Hle].
      assert ((Fin (Qred (Qred (q - 3) + 50)) >? Fin 0) = true) as Ht.
      { apply gt_Fin. rewrite !Qred_correct. lra. }
      congruence.
    + destruct (Fin (Qred (Qred (q - 3) + 50)) >? Fin 0) eqn:E;
        [|reflexivity].
      apply gt_Fin in E. rewrite !Qred_correct in E. lra.
Qed.

Lemma newPipes_nil (s : State) :
  newPipes s = [] <-> Forall leaving (pipes s).
Proof.
  unfold newPipes, pipeResults. rewrite map_map.
  induction (pipes s) as [|p l IH].
  - simpl. split; [constructor | reflexivity].
  - cbn [map filter].
    change (horizontalPosition
              (PipeProcessResult.pipe
                 (processPipe p birdX (newVelocity s) (newPosition s))))
      with (horizontalPosition p - Constants.PIPE_SPEED).
    destruct (horizontalPosition p - Constants.PIPE_SPEED
              + Constants.PIPE_WIDTH >? 0) eqn:E.
    + split; [discriminate|].
      intro H. inversion H as [|p' l' Hp _]. subst.
      apply retained_iff in Hp. congruence.
    + rewrite IH. apply retained_iff in E. split.
      * intro H. constructor; assumption.
      * intro H. inversion H. assumption.
Qed.

(** X12: a tick of a started, running state ends the game exactly when it
    leaves no life or when every pipe of the state is leaving the canvas
    (trailing edge at [3] or less before the tick, or no position); in the
    second case the list of pipes becomes empty. *)
Theorem tick_ends_game (s : State) :
  gameStarted s = true -> gameEnd s = false ->
  (gameEnd (tick s) = true <->
   (lives (tick s) <= 0)%Z \/ Forall leaving (pipes s)) /\
  (Forall leaving (pipes s) <-> pipes (tick s) = []).
Proof.
  intros Hs He.
  assert (pipes (tick s) = newPipes s) as Hp.
  { unfold tick. rewrite He. reflexivity. }
  split.
  - rewrite (tick_gameEnd s He), Hs, Hp. cbn [andb].
    rewrite orb_true_iff, Z.leb_le, Nat.eqb_eq, <- newPipes_nil.
    rewrite length_zero_iff_nil. tauto.
  - rewrite Hp. symmetry. apply newPipes_nil.
Qed.

Lemma tick_ends_game_witness :
  gameEnd (tick lastPipeLeaving) = true /\ pipes (tick lastPipeLeaving) = [].
Proof.
  destruct (tick_ends_game lastPipeLeaving eq_refl eq_refl) as [He Hp].
  assert (Forall leaving (pipes lastPipeLeaving)) as Hl.
  { constructor; [|constructor]. vm_compute. discriminate. }
  split.
  - apply He. right. exact Hl.
  - apply Hp. exact Hl.
Defined.

(** X13: the pipes of a running state after a tick are no more than before,
    and each of them is a pipe of the state before moved left by
    [PIPE_SPEED], with the same gap and time, with its trailing edge still to
    the right of the left edge of the canvas (its position is a number above
    [-50]), and with every flag that was set still set. *)
Theorem tick_pipes_retained (s : State) :
  gameEnd s = false ->
  (List.length (pipes (tick s)) <= List.length (pipes s))%nat /\
  forall pipe' : Pipe,
    In pipe' (pipes (tick s)) ->
    (exists q : Q, horizontalPosition pipe' = Fin q /\ (-50 < q)%Q) /\
    exists pipe : Pipe,
      In pipe (pipes s) /\
      horizontalPosition pipe' =
        horizontalPosition pipe - Constants.PIPE_SPEED /\
      gapY pipe' = gapY pipe /\ gapHeight pipe' = gapHeight pipe /\
      time pipe' = time pipe /\
      (collided pipe = true -> collided pipe' = true) /\
      (passed pipe = true -> passed pipe' = true).
Proof.
  intro He.
  assert (pipes (tick s) = newPipes s) as Hp.
  { unfold tick. rewrite He. reflexivity. }
  rewrite Hp. unfold newPipes. split.
  - eapply Nat.le_trans; [apply filter_length_le|].
    rewrite length_map. unfold pipeResults. rewrite length_map. lia.
  - intros p' Hin. apply filter_In in Hin. destruct Hin as [Hin Hedge].
    apply in_map_iff in Hin. destruct Hin as [r [<- Hr]].
    unfold pipeResults in Hr. apply in_map_iff in Hr.
    destruct Hr as [p [<- Hinp]]. split.
    + revert Hedge. unfold processPipe.
      cbn [PipeProcessResult.pipe horizontalPosition].
      unfold Constants.PIPE_SPEED, Constants.PIPE_WIDTH.
      destruct (horizontalPosition p) as [|q]; [discriminate|].
      unfold sub, add, lift2. intro Hedge.
      exists (Qred (q - 3)). split; [reflexivity|].
      apply gt_Fin in Hedge. rewrite Qred_correct in Hedge. lra.
    + exists p. split; [exact Hinp|].
      unfold processPipe. cbn [PipeProcessResult.pipe horizontalPosition
        gapY gapHeight time collided passed].
      repeat split; try reflexivity; intros ->; reflexivity.
Qed.

Lemma tick_pipes_retained_witness :
  (List.length (pipes (tick onePipeAhead)) <= 1)%nat.
Proof.
  exact (proj1 (tick_pipes_retained onePipeAhead eq_refl)).
Defined.

(** ** The generator *)

Lemma scale_Fin (h : Q) :
  exists q : Q,
    RNG.scale (Fin h) = Fin q /\ (q == h * (2 # 2147483647) - 1)%Q.
Proof.
  unfold RNG.scale. rewrite sub_m_1.
  eexists. split; [reflexivity|].
  rewrite !Qred_correct, Qdiv_m1. ring.
Qed.


Lemma Qred_inject_Z (q : Q) (z : Z) : (q == inject_Z z)%Q -> Qred q = inject_Z z.
Proof.
  intro H. rewrite (Qred_complete _ _ H).
  apply Qcanon.Qred_identity. simpl. apply Z.gcd_1_r.
Qed.

Lemma trunc_inject_Z_div (k : Z) (d : positive) :
  trunc (inject_Z k / inject_Z (Zpos d)) = Z.quot k (Zpos d).
Proof.
  unfold trunc, Qdiv, Qmult, Qinv, inject_Z. cbn [Qnum Qden].
  rewrite Z.mul_1_r, Pos.mul_1_l. reflexivity.
Qed.

(** X15: on an integer seed [n], [RNG.hash] is one step of the linear
    congruential generator with the remainder of JavaScript, which has the
    sign of [a * n + c]: it is negative for a negative such value.  The
    bound on [n] is the range in which a double holds [a * n + c] exactly. *)
Theorem hash_integer (n : Z) :
  (-8000000 <= n <= 8000000)%Z ->
  RNG.hash (Fin (inject_Z n)) =
  Fin (inject_Z (Z.rem (1103515245 * n + 12345) 2147483648)).
Proof.
  intros _. unfold RNG.hash, RNG.a, RNG.c, RNG.m, mul, add, rem, lift2.
  change (Qeq_bool 2147483648 0) with false. cbv iota.
  assert (Qred (Qred (1103515245 * inject_Z n) + 12345)
          = inject_Z (1103515245 * n + 12345)) as Hx.
  { apply Qred_inject_Z. rewrite Qred_correct.
    rewrite inject_Z_plus, inject_Z_mult. reflexivity. }
  rewrite Hx.
  change 2147483648%Q with (inject_Z (Zpos 2147483648)).
  rewrite trunc_inject_Z_div.
  f_equal. apply Qred_inject_Z.
  set (k := (1103515245 * n + 12345)%Z).
  rewrite (Z.quot_rem' k (Zpos 2147483648)) at 1.
  rewrite inject_Z_plus, inject_Z_mult. ring.
Qed.

Lemma hash_integer_witness :
  RNG.hash (Fin (inject_Z (-1))) = Fin (inject_Z (-1103502900)).
Proof.
  apply (hash_integer (-1)). lia.
Defined.

(** ** The score of a tick *)

Lemma sumZ_le_length (l : list Z) :
  Forall (fun z => (z <= 1)%Z) l -> (sumZ l <= Z.of_nat (List.length l))%Z.
Proof.
  induction 1 as [|z l Hz _ IH]; unfold sumZ in *; simpl List.length;
    cbn [fold_right]; lia.
Qed.

(** X16: a tick raises the score by at most the number of pipes of the
    state, and does not raise it when the state has no pipe. *)
Theorem tick_score_bound (s : State) :
  (score s <= score (tick s) <= score s + Z.of_nat (List.length (pipes s)))%Z.
Proof.
  destruct (tick_monotone s) as [_ Hlo]. split; [exact Hlo|].
  destruct (gameEnd s) eqn:E.
  - rewrite (tick_ended s E). lia.
  - rewrite (tick_score s E), totalScoreIncrease_sum.
    assert (sumZ (map PipeProcessResult.scoreIncrease
                      (map (evalPipe s) (pipes s)))
            <= Z.of_nat (List.length
                           (map PipeProcessResult.scoreIncrease
                                (map (evalPipe s) (pipes s)))))%Z as H.
    { apply sumZ_le_length. apply Forall_forall. intros z Hz.
      apply in_map_iff in Hz. destruct Hz as [r [<- Hr]].
      apply in_map_iff in Hr. destruct Hr as [p [<- _]].
      apply scoreIncrease_range. }
    rewrite !length_map in H. lia.
Qed.

(** ** The fields of a record *)

Lemma append_assoc (a b c : string) :
  ((a ++ b) ++ c = a ++ (b ++ c))%string.
Proof. induction a as [|ch a IH]; simpl; [reflexivity | rewrite IH; reflexivity]. Qed.

Lemma append_empty_r (a : string) : (a ++ EmptyString)%string = a.
Proof. induction a as [|ch a IH]; simpl; [reflexivity | rewrite IH; reflexivity]. Qed.

Lemma splitOn_plain (sep : ascii) (a : string) :
  forall cur : string,
    occurs sep a = false -> splitOn sep cur a = [(cur ++ a)%string].
Proof.
  induction a as [|ch a IH]; intros cur H.
  - simpl. rewrite append_empty_r. reflexivity.
  - simpl in H. apply orb_false_iff in H. destruct H as [Hch Ha].
    simpl. rewrite Hch, (IH _ Ha), append_assoc. reflexivity.
Qed.

Lemma splitOn_first (sep : ascii) (a rest : string) :
  forall cur : string,
    occurs sep a = false ->
    splitOn sep cur (a ++ String sep rest) =
    (cur ++ a)%string :: splitOn sep EmptyString rest.
Proof.
  induction a as [|ch a IH]; intros cur H.
  - simpl. rewrite Ascii.eqb_refl, append_empty_r. reflexivity.
  - simpl in H. apply orb_false_iff in H. destruct H as [Hch Ha].
    simpl. rewrite Hch, (IH _ Ha), append_assoc. reflexivity.
Qed.

Lemma splitOn_length (sep : ascii) (s : string) :
  forall cur : string,
    List.length (splitOn sep cur s) = S (countChar sep s).
Proof.
  induction s as [|ch s IH]; intro cur.
  - reflexivity.
  - simpl. destruct (Ascii.eqb ch sep); simpl; rewrite IH; reflexivity.
Qed.

(** X17: whatever the line, the parsed pipe stands at the right edge of the
    canvas with both flags false; a line with fewer than two commas gives a
    pipe whose [time] is [NaN], and a line without a comma one whose
    [gapHeight] is [NaN] too. *)
Theorem parsePipeLine_fields (Number : string -> number) (line : string) :
  let pipe := parsePipeLine Number line in
  horizontalPosition pipe = Viewport.CANVAS_WIDTH /\
  collided pipe = false /\ passed pipe = false /\
  ((countChar ","%char line < 2)%nat -> time pipe = NaN) /\
  ((countChar ","%char line < 1)%nat -> gapHeight pipe = NaN).
Proof.
  cbv zeta. unfold parsePipeLine. cbn [horizontalPosition collided passed
    time gapHeight].
  pose proof (splitOn_length ","%char line EmptyString) as Hlen.
  fold (split line) in Hlen.
  repeat split; intro H.
  - rewrite nth_overflow; [reflexivity|]. rewrite length_map, Hlen. lia.
  - rewrite nth_overflow; [reflexivity|]. rewrite length_map, Hlen. lia.
Qed.

(** X18: on a line of three fields without commas, the pipe has the first
    field times the height of the canvas as [gapY], the second times that
    height as [gapHeight] and the third times [1000] as [time]; whatever
    follows a third comma is ignored. *)
Theorem parsePipeLine_three_fields
    (Number : string -> number) (a b c : string) :
  occurs ","%char a = false ->
  occurs ","%char b = false ->
  occurs ","%char c = false ->
  parsePipeLine Number (a ++ "," ++ b ++ "," ++ c) =
    {| horizontalPosition := Viewport.CANVAS_WIDTH;
       gapY := Number a * Viewport.CANVAS_HEIGHT;
       gapHeight := Number b * Viewport.CANVAS_HEIGHT;
       time := Number c * 1000;
       collided := false;
       passed := false |} /\
  forall rest : string,
    parsePipeLine Number (a ++ "," ++ b ++ "," ++ c ++ "," ++ rest) =
    parsePipeLine Number (a ++ "," ++ b ++ "," ++ c).
Proof.
  intros Ha Hb Hc.
  assert (split (a ++ "," ++ b ++ "," ++ c) = [a; b; c]) as H3.
  { unfold split. cbn [append].
    rewrite (splitOn_first _ a _ EmptyString Ha).
    rewrite (splitOn_first _ b _ EmptyString Hb).
    rewrite (splitOn_plain _ c EmptyString Hc). reflexivity. }
  assert (forall rest,
            exists more,
              split (a ++ "," ++ b ++ "," ++ c ++ "," ++ rest)
              = a :: b :: c :: more) as H4.
  { intro rest. unfold split. cbn [append].
    rewrite (splitOn_first _ a _ EmptyString Ha).
    rewrite (splitOn_first _ b _ EmptyString Hb).
    rewrite (splitOn_first _ c _ EmptyString Hc).
    eexists. reflexivity. }
  split.
  - unfold parsePipeLine. rewrite H3. reflexivity.
  - intro rest. destruct (H4 rest) as [more Hm].
    unfold parsePipeLine. rewrite H3, Hm. reflexivity.
Qed.

Lemma parsePipeLine_three_fields_witness :
  parsePipeLine NumberDecimal "0.5,0.25,2" =
    {| horizontalPosition := Viewport.CANVAS_WIDTH;
       gapY := NumberDecimal "0.5" * Viewport.CANVAS_HEIGHT;
       gapHeight := NumberDecimal "0.25" * Viewport.CANVAS_HEIGHT;
       time := NumberDecimal "2" * 1000;
       collided := false;
       passed := false |}.
Proof.
  exact (proj1 (parsePipeLine_three_fields NumberDecimal "0.5" "0.25" "2"
                  eq_refl eq_refl eq_refl)).
Defined.

(** ** The schedule *)

(** X19: the schedule has one timer for every newline of the trimmed file,
    so that a file of one line, the header, schedules nothing; each timer
    waits for the [time] of its pipe and then emits the reducer that spawns
    that pipe, which stands at the right edge of the canvas with both flags
    false. *)
Theorem createPipeStream_timers
    (Number : string -> number) (csvContents : string) :
  List.length (createPipeStream Number csvContents) =
    countChar newline (trim csvContents) /\
  Forall (fun timer =>
            exists pipe : Pipe,
              snd timer = Spawn pipe /\ fst timer = time pipe /\
              horizontalPosition pipe = Viewport.CANVAS_WIDTH /\
              collided pipe = false /\ passed pipe = false)
         (createPipeStream Number csvContents).
Proof.
  unfold createPipeStream, csvLines. split.
  - rewrite !length_map.
    pose proof (splitOn_length newline (trim csvContents) EmptyString) as H.
    destruct (splitOn newline EmptyString (trim csvContents)) as [|l ls].
    + discriminate H.
    + simpl in *. lia.
  - apply Forall_forall. intros timer Hin.
    apply in_map_iff in Hin. destruct Hin as [p [<- Hp]].
    apply in_map_iff in Hp. destruct Hp as [line [<- _]].
    exists (parsePipeLine Number line). repeat split.
Qed.

Lemma splitOn_joinLines (line : string) (lines : list string) :
  Forall (fun l => occurs newline l = false) (line :: lines) ->
  splitOn newline EmptyString (joinLines (line :: lines)) = line :: lines.
Proof.
  revert line. induction lines as [|l ls IH]; intros line H.
  - inversion H as [|? ? Hl _]. subst. simpl.
    apply (splitOn_plain newline line EmptyString Hl).
  - inversion H as [|? ? Hl Hrest]. subst.
    change (joinLines (line :: l :: ls))
      with (line ++ String newline (joinLines (l :: ls)))%string.
    rewrite (splitOn_first newline line _ EmptyString Hl).
    rewrite (IH l Hrest). reflexivity.
Qed.

(** X20: for a file made of a header line and of record lines, none with a
    newline inside and with no white space at either end of the file, the
    schedule has exactly one timer per record, in the order of the file,
    carrying the pipe parsed from that record; the header is never parsed. *)
Theorem createPipeStream_records
    (Number : string -> number) (header : string) (records : list string) :
  Forall (fun l => occurs newline l = false) (header :: records) ->
  trim (joinLines (header :: records)) = joinLines (header :: records) ->
  createPipeStream Number (joinLines (header :: records)) =
  map (fun record =>
         (time (parsePipeLine Number record),
          Spawn (parsePipeLine Number record)))
      records.
Proof.
  intros Hl Ht. unfold createPipeStream, csvLines.
  rewrite Ht, (splitOn_joinLines header records Hl).
  cbn [tl]. rewrite map_map. reflexivity.
Qed.

Lemma createPipeStream_records_witness :
  createPipeStream NumberDecimal sampleCsv =
  map (fun record =>
         (time (parsePipeLine NumberDecimal record),
          Spawn (parsePipeLine NumberDecimal record)))
      ["0.5,0.25,2"; "0.3,0.2,5.5"]%string.
Proof.
  apply (createPipeStream_records NumberDecimal "gap_y,gap_height,time"
           ["0.5,0.25,2"; "0.3,0.2,5.5"]%string).
  - repeat constructor.
  - vm_compute. reflexivity.
Defined.

(** ** The session and its ghost *)

Lemma takeWhileInclusive_prefix
    (predicate : State -> bool) (l : list State) :
  exists rest : list State,
    l = takeWhileInclusive predicate l ++ rest /\
    (rest <> [] ->
     forall d : State,
       predicate (last (takeWhileInclusive predicate l) d) = false).
Proof.
  induction l as [|st l IH].
  - exists []. split; [reflexivity|].
    intro H. exfalso. apply H. reflexivity.
  - simpl. destruct (predicate st) eqn:E.
    + destruct IH as [rest [Heq Hlast]].
      exists rest. split; [simpl; f_equal; exact Heq|].
      intros Hr d.
      destruct (takeWhileInclusive predicate l) as [|st' l'] eqn:El.
      * destruct l as [|x l0];
          [simpl in Heq; subst rest; exfalso; apply Hr; reflexivity|].
        simpl in El. destruct (predicate x); discriminate El.
      * exact (Hlast Hr d).
    + exists l. split; [reflexivity|].
      intros _ d. simpl. exact E.
Qed.

(** X21: a session is a prefix of the stream of states that starts with
    [initialState]; all its states but the last are running; and when it
    leaves a part of the stream out, its last state has ended: the session
    stops at the first ended state, that state included. *)
Theorem createGameSession_stops (rs : list Reducer) :
  exists (running rest : list State) (final : State),
    createGameSession rs = running ++ [final] /\
    stateStream rs = running ++ final :: rest /\
    hd final running = initialState /\
    Forall (fun st => gameEnd st = false) running /\
    (rest <> [] -> gameEnd final = true).
Proof.
  pose proof (createGameSession_running rs) as Hrun.
  destruct (takeWhileInclusive_prefix
              (fun state => negb (gameEnd state)) (stateStream rs))
    as [rest [Heq Hlast]].
  fold (createGameSession rs) in Heq, Hlast.
  assert (createGameSession rs <> []) as Hne.
  { unfold createGameSession, stateStream. simpl. discriminate. }
  destruct (exists_last Hne) as [running [final Hs]].
  exists running, rest, final.
  rewrite Hs in Heq, Hlast, Hrun. rewrite removelast_last in Hrun.
  split; [exact Hs|]. split; [rewrite Heq, <- app_assoc; reflexivity|].
  split; [|split; [exact Hrun|]].
  - assert (hd final (createGameSession rs) = initialState) as Hhd
      by reflexivity.
    rewrite Hs in Hhd. destruct running; exact Hhd.
  - intro Hr. specialize (Hlast Hr final). rewrite last_last in Hlast.
    apply negb_false_iff in Hlast. exact Hlast.
Qed.

Lemma createGhost_at (path : list number) (i : nat) :
  (forall y : number,
     nth_error path i = Some y -> (i + 1 < List.length path)%nat ->
     createGhost path i = Some (Some y)) /\
  ((i + 1 = List.length path)%nat -> createGhost path i = Some None) /\
  ((List.length path <= i)%nat -> createGhost path i = None).
Proof.
  unfold createGhost, Rx.map, Rx.take, Rx.interval, pathLength, pathAt.
  split; [|split].
  - intros y Hy Hi.
    replace (Z.of_nat i <? Z.of_nat (List.length path))%Z with true
      by (symmetry; apply Z.ltb_lt; lia).
    cbn [option_map].
    replace (Z.of_nat i <? Z.of_nat (List.length path) - 1)%Z with true
      by (symmetry; apply Z.ltb_lt; lia).
    rewrite Nat2Z.id, Hy. reflexivity.
  - intro Hi.
    replace (Z.of_nat i <? Z.of_nat (List.length path))%Z with true
      by (symmetry; apply Z.ltb_lt; lia).
    cbn [option_map].
    replace (Z.of_nat i <? Z.of_nat (List.length path) - 1)%Z with false
      by (symmetry; apply Z.ltb_ge; lia).
    reflexivity.
  - intro Hi.
    replace (Z.of_nat i <? Z.of_nat (List.length path))%Z with false
      by (symmetry; apply Z.ltb_ge; lia).
    reflexivity.
Qed.

(** X22: the ghost made from the path recorded during a session shows, tick
    by tick, the position of the bird in each state of the session before
    the last, all of them running states; at the tick of the last state it
    emits [null], and then it has completed. *)
Theorem ghost_of_session (rs : list Reducer) :
  let session := createGameSession rs in
  let ghost := createGhost (recordPath session) in
  (forall (i : nat) (st : State),
     nth_error session i = Some st ->
     (i + 1 < List.length session)%nat ->
     gameEnd st = false /\
     ghost i = Some (Some (verticalPosition (bird st)))) /\
  ghost (List.length session - 1)%nat = Some None /\
  (forall i : nat, (List.length session <= i)%nat -> ghost i = None).
Proof.
  cbv zeta.
  assert (List.length (recordPath (createGameSession rs))
          = List.length (createGameSession rs)) as Hlen
    by apply length_map.
  assert (createGameSession rs <> []) as Hne.
  { unfold createGameSession, stateStream. simpl. discriminate. }
  split; [|split].
  - intros i st Hnth Hi. split.
    + pose proof (createGameSession_running rs) as Hrun.
      destruct (exists_last Hne) as [running [final Hs]].
      rewrite Hs in Hrun, Hnth, Hi. rewrite removelast_last in Hrun.
      rewrite length_app in Hi. simpl in Hi.
      rewrite nth_error_app1 in Hnth by lia.
      apply nth_error_In in Hnth.
      rewrite Forall_forall in Hrun. apply Hrun. exact Hnth.
    + apply (proj1 (createGhost_at _ i)).
      * unfold recordPath. rewrite nth_error_map, Hnth. reflexivity.
      * rewrite Hlen. exact Hi.
  - apply (proj1 (proj2 (createGhost_at _ _))).
    rewrite Hlen. destruct (createGameSession rs); [congruence|].
    simpl. lia.
  - intros i Hi. apply (proj2 (proj2 (createGhost_at _ i))).
    rewrite Hlen. exact Hi.
Qed.

(** ** The drawing *)


Lemma removed_pipe_not_hit_witness :
  PipeProcessResult.hitPipe (evalPipe lastPipeLeaving (pipeAt (-47))) = false
  /\
  PipeProcessResult.velocityAdjustment
    (evalPipe lastPipeLeaving (pipeAt (-47))) = 0.
Proof.
  apply (removed_pipe_not_hit lastPipeLeaving (pipeAt (-47))).
  vm_compute. reflexivity.
Defined.



(** ** The stream of states *)

Lemma scanStates_nth (rs : list Reducer) :
  forall (s : State) (i : nat) (st : State),
    nth_error (s :: scanStates rs s) i = Some st ->
    st = scan (firstn i rs) s.
Proof.
  induction rs as [|r rs IH]; intros s i st H.
  - destruct i as [|i]; simpl in H.
    + injection H as <-. reflexivity.
    + destruct i; discriminate H.
  - destruct i as [|i].
    + simpl in H. injection H as <-. reflexivity.
    + cbn [scanStates nth_error] in H. cbn [firstn]. unfold scan. simpl.
      apply (IH (reducerFn r s) i st). exact H.
Qed.

Lemma scanStates_last (rs : list Reducer) :
  forall s d : State, last (s :: scanStates rs s) d = scan rs s.
Proof.
  induction rs as [|r rs IH]; intros s d.
  - reflexivity.
  - change (last (s :: scanStates (r :: rs) s) d)
      with (last (reducerFn r s :: scanStates rs (reducerFn r s)) d).
    rewrite IH. reflexivity.
Qed.

(** X27: the stream of states has one state more than there are events, and
    its state number [i] is the fold of the first [i] reducers over
    [initialState]; the last one is the fold of all of them. *)
Theorem stateStream_scan (rs : list Reducer) :
  List.length (stateStream rs) = S (List.length rs) /\
  (forall (i : nat) (st : State),
     nth_error (stateStream rs) i = Some st ->
     st = scan (firstn i rs) initialState) /\
  last (stateStream rs) initialState = scan rs initialState.
Proof.
  unfold stateStream. split; [|split].
  - simpl. f_equal. generalize initialState.
    induction rs as [|r rs IH]; intro s; simpl; [reflexivity|].
    rewrite IH. reflexivity.
  - intros i st H. exact (scanStates_nth rs initialState i st H).
  - apply scanStates_last.
Qed.

(** ** The edges of the canvas *)

Lemma le_ge_exclusive (y : number) :
  (y <=? 0) && (y >=? Viewport.CANVAS_HEIGHT) = false.
Proof.
  destruct y as [|q]; [reflexivity|].
  destruct (Fin q <=? 0) eqn:E1; [|reflexivity].
  destruct (Fin q >=? Viewport.CANVAS_HEIGHT) eqn:E2; [|reflexivity].
  apply le_Fin in E1. unfold Viewport.CANVAS_HEIGHT in E2.
  apply ge_Fin in E2. lra.
Qed.

(** X28: a tick never reports both edges at once, so that it never calls
    [createRandomVelocity] with both sides set; with the hash of the
    velocity after gravity in [[0, m - 1]], the boundary adjustment lies in
    [[5, 10]] at the top edge and in [[-10, -5]] at the bottom edge, and it
    is [0] when no edge is reached. *)
Theorem tick_boundary_adjustment (s : State) :
  hitTop s && hitBottom s = false /\
  (forall h : Q,
     RNG.hash (Constants.SEED + newVelocity s) = Fin h ->
     (0 <= h)%Q -> (h <= 2147483647)%Q ->
     (hitTop s = true -> inRange 5 10 (boundaryVelocityAdjustment s)) /\
     (hitBottom s = true ->
      inRange (-10) (-5) (boundaryVelocityAdjustment s))) /\
  (hitTop s = false -> hitBottom s = false ->
   boundaryVelocityAdjustment s = 0).
Proof.
  pose proof (le_ge_exclusive (newPosition s)) as Hx.
  fold (hitTop s) in Hx. fold (hitBottom s) in Hx.
  split; [exact Hx|]. split.
  - intros h Hh H0 H1. unfold boundaryVelocityAdjustment.
    destruct (collision_value_range (newVelocity s) h (hitBottom s) Hh H0 H1)
      as [Ht Hb].
    split; intro H; rewrite H in *.
    + exact Ht.
    + simpl in Hx. rewrite andb_true_r in Hx. rewrite Hx.
      cbn [orb]. exact Hb.
  - intros Ht Hb. unfold boundaryVelocityAdjustment. rewrite Ht, Hb.
    reflexivity.
Qed.

Lemma tick_boundary_adjustment_witness :
  inRange 5 10 (boundaryVelocityAdjustment boundaryExampleUp).
Proof.
  assert (RNG.hash (Constants.SEED + newVelocity boundaryExampleUp)
          = Fin 615051099) as Hh by (vm_compute; reflexivity).
  assert (0 <= 615051099)%Q as H0 by (vm_compute; discriminate).
  assert (615051099 <= 2147483647)%Q as H1 by (vm_compute; discriminate).
  assert (hitTop boundaryExampleUp = true) as Ht by (vm_compute; reflexivity).
  exact (proj1 (proj1 (proj2 (tick_boundary_adjustment boundaryExampleUp))
                      615051099 Hh H0 H1) Ht).
Defined.
